(** * v.vect.stats.multi: job expansion, validation and dispatch

    A shallow embedding of [main] of
    [src/vector/v.vect.stats.multi/v.vect.stats.multi.py] and the
    properties of its column resolver, its name validation and its
    dispatch loop.

    Python strings are modelled as [string] (sequences of bytes); the SQL
    type names and option values the program handles are ASCII.  The
    GRASS scripting library ([gs.parser], [gs.vector_columns],
    [gs.run_command], [gs.percent], [gs.fatal]) is outside the module: its
    results are taken from an environment record and its effects are
    recorded in an event log. *)

From Stdlib Require Import ZArith Ascii String List.
From stdpp Require Import base decidable option list strings gmap.

Local Open Scope string_scope.
Local Open Scope list_scope.
Local Open Scope nat_scope.

(** ** Python string operations used by the module *)

Module PyStr.

(** [c.upper()] for one ASCII character: a..z go to A..Z, every other
    byte is unchanged. *)
Definition upper_ascii (c : ascii) : ascii :=
  let n := nat_of_ascii c in
  if (97 <=? n)%nat && (n <=? 122)%nat then ascii_of_nat (n - 32) else c.

(** [s.upper()] on an ASCII string, where it changes the letters a..z and
    nothing else; strings with other bytes are outside what is modelled. *)
Fixpoint upper (s : string) : string :=
  match s with
  | EmptyString => EmptyString
  | String c rest => String (upper_ascii c) (upper rest)
  end.

(** [s.split(sep)] for a one-character separator: the pieces between
    the separators, empty pieces kept, so the result is never empty
    ([split] of the empty string is the list holding one empty string). *)
Fixpoint split (sep : ascii) (s : string) : list string :=
  match s with
  | EmptyString => [EmptyString]
  | String c rest =>
      if Ascii.eqb c sep then EmptyString :: split sep rest
      else match split sep rest with
           | [] => [String c EmptyString]
           | piece :: pieces => String c piece :: pieces
           end
  end.

(** Truth value of a string: [if s:] holds when [s] is not empty. *)
Definition truthy (s : string) : bool :=
  match s with
  | EmptyString => false
  | String _ _ => true
  end.

(** Truth value of a list: [if l:] holds when [l] is not empty. *)
Definition truthy_list {A} (l : list A) : bool :=
  match l with
  | [] => false
  | _ :: _ => true
  end.

End PyStr.

(** ** The numeric SQL types (lines 112-138) *)

Definition _SQL_INT_TYPES : list string :=
  [ "INT"; "INTEGER"; "TINYINT"; "SMALLINT"; "MEDIUMINT"; "BIGINT";
    "UNSIGNED BIG INT"; "INT2"; "INT8" ].

Definition _SQL_FLOAT_TYPES : list string :=
  [ "REAL"; "DOUBLE"; "DOUBLE PRECISION"; "FLOAT"; "FLOATING POINT" ].

Definition _SQL_NUMERIC_TYPES : list string :=
  _SQL_INT_TYPES ++ _SQL_FLOAT_TYPES.

(** [sql_type.upper() in _SQL_NUMERIC_TYPES]: the definition the module
    falls back to when [grass.script] does not provide one. *)
Definition sql_type_is_numeric (sql_type : string) : bool :=
  bool_decide (PyStr.upper sql_type ∈ _SQL_NUMERIC_TYPES).

(** ** Options, column metadata and the delegated command *)

(** The dictionary returned by [gs.parser()]: one string per option
    declared in the module header (lines 27-101); an option that was not
    given is the empty string. *)
Record Options := {
  points : string;
  areas : string;
  type : string;
  points_layer : string;
  points_cats : string;
  points_where : string;
  areas_layer : string;
  areas_cats : string;
  areas_where : string;
  method : string;
  points_columns : string;
  count_column : string;
  stats_columns : string;
}.

(** The options as a dictionary in declaration order, for
    [options.copy()] and the [del] statements of lines 217-221. *)
Definition options_dict (o : Options) : list (string * string) :=
  [ ("points", points o); ("areas", areas o); ("type", type o);
    ("points_layer", points_layer o); ("points_cats", points_cats o);
    ("points_where", points_where o); ("areas_layer", areas_layer o);
    ("areas_cats", areas_cats o); ("areas_where", areas_where o);
    ("method", method o); ("points_columns", points_columns o);
    ("count_column", count_column o); ("stats_columns", stats_columns o) ].

(** [del d[key]] on a dictionary that holds [key]. *)
Definition dict_del (key : string) (d : list (string * string))
  : list (string * string) :=
  filter (λ kv, kv.1 ≠ key) d.

(** One entry of the dictionary [gs.vector_columns] returns; [main] reads
    only the type. *)
Record ColumnInfo := {
  name : string;
  sqlType : string;
}.

(** The keyword arguments of one [gs.run_command("v.vect.stats", ...)]
    call (lines 237-245). *)
Record Kwargs := {
  kw_method : string;
  kw_points_column : string;
  kw_stats_column : string;
  kw_quiet : bool;
  kw_options : list (string * string);
  kw_errors : string;
}.

(** The external collaborators of section 6 of the spec, as parameters
    of a run.  [vector_columns] is [gs.vector_columns(map, layer)] (a mapping from
    column name to its info), [vector_columns_names] is the same call with
    [getDict=False] (the names in the table's order), and [v_vect_stats]
    tells whether the delegated command succeeds, given the calls issued
    before it in this run and its own arguments. *)
Record Env := {
  vector_columns : string → string → gmap string ColumnInfo;
  vector_columns_names : string → string → list string;
  v_vect_stats : list Kwargs → Kwargs → bool;
}.

(** ** Effects: an event log and abnormal termination *)

Inductive event :=
| ECall (module : string) (kw : Kwargs)
| EPercent (i n s : nat).

(** The ways a run ends other than by [return]: the four [gs.fatal]
    calls with the arguments of their messages, the exit that
    [errors="exit"] asks of [gs.run_command], and the two exceptions
    indexing can raise. *)
Inductive error :=
| ColumnNotFoundError (name points_name points_layer : string)
| NonNumericColumnError (name points_name column_type : string)
| NameCountMismatchError
    (names_provided num_points_columns num_methods names_needed : nat)
| DuplicateNameError (names_provided num_unique_names : nat)
| DelegatedOperationError
| KeyError (key : string)
| IndexError (i : nat).

Inductive result (A : Type) :=
| Ok (a : A)
| Abort (e : error).
Arguments Ok {A} a.
Arguments Abort {A} e.

(** A computation reads the log so far and returns the extended log with
    its result. *)
Definition M (A : Type) : Type := list event → list event * result A.

Definition ret {A} (a : A) : M A := λ log, (log, Ok a).

Definition bind {A B} (m : M A) (k : A → M B) : M B :=
  λ log, match m log with
         | (log', Ok a) => k a log'
         | (log', Abort e) => (log', Abort e)
         end.

Declare Scope py_scope.
Delimit Scope py_scope with py.
Notation "'do' x <- m ; k" := (bind m (λ x, k))
  (at level 10, x name, m at level 100, k at level 200) : py_scope.
Notation "m ;; k" := (bind m (λ _, k))
  (at level 100, k at level 200, right associativity) : py_scope.
Local Open Scope py_scope.

(** The [ECall] events of a log, in order. *)
Definition calls_of (log : list event) : list Kwargs :=
  omap (λ e, match e with ECall _ kw => Some kw | EPercent _ _ _ => None end)
       log.

(** A pure step that may raise. *)
Definition lift {A} (r : result A) : M A := λ log, (log, r).

(** Modelled from the spec: [gs.fatal] ends the run with the error. *)
Definition fatal {A} (e : error) : M A := lift (Abort e).

(** Modelled from the spec: [gs.percent(i, n, s)] emits one progress
    signal. *)
Definition percent (i n s : nat) : M unit :=
  λ log, (log ++ [EPercent i n s], Ok tt).

(** Modelled from the spec: [gs.run_command] issues the delegated call;
    with [errors="exit"] a failing call ends the run at once. *)
Definition run_command (env : Env) (module : string) (kw : Kwargs) : M unit :=
  λ log,
    let ok := v_vect_stats env (calls_of log) kw in
    (log ++ [ECall module kw],
     if ok then Ok tt else Abort DelegatedOperationError).

(** [d[key]] on a dictionary: [KeyError] when the key is missing. *)
Definition getitem {V} (d : gmap string V) (key : string) : result V :=
  match d !! key with
  | Some v => Ok v
  | None => Abort (KeyError key)
  end.

(** [l[i]] on a list with [i >= 0]: [IndexError] out of range. *)
Definition getitem_list {V} (l : list V) (i : nat) : result V :=
  match l !! i with
  | Some v => Ok v
  | None => Abort (IndexError i)
  end.

(** [itertools.product(xs, ys)]: the rightmost element advances on
    every iteration. *)
Definition product {A B} (xs : list A) (ys : list B) : list (A * B) :=
  flat_map (λ x, map (pair x) ys) xs.

(** ** [main] *)

(** Lines 146-148: the columns the user asked for, if any. *)
Definition requested_columns (options : Options) : list string :=
  if PyStr.truthy (points_columns options)
  then PyStr.split "," (points_columns options)
  else [].

(** Line 184. *)
Definition methods (options : Options) : list string :=
  PyStr.split "," (method options).

(** Lines 185-188: the names the user gave for the new columns, if any. *)
Definition stats_columns_names (options : Options) : list string :=
  if PyStr.truthy (stats_columns options)
  then PyStr.split "," (stats_columns options)
  else [].

(** Lines 158-162: collect the numeric columns in the table's order. *)
Fixpoint collect_numeric (input_vector_columns : gmap string ColumnInfo)
    (all_column_names : list string) (points_columns : list string)
  : M (list string) :=
  match all_column_names with
  | [] => ret points_columns
  | name :: rest =>
      do column_info <- lift (getitem input_vector_columns name) ;
      let column_type := sqlType column_info in
      if sql_type_is_numeric column_type
      then collect_numeric input_vector_columns rest (points_columns ++ [name])
      else collect_numeric input_vector_columns rest points_columns
  end.

(** Lines 165-182: check the columns the user asked for, one by one. *)
Fixpoint check_columns (input_vector_columns : gmap string ColumnInfo)
    (points_name points_layer : string) (names : list string) : M unit :=
  match names with
  | [] => ret tt
  | name :: rest =>
      match getitem input_vector_columns name with
      | Abort _ => fatal (ColumnNotFoundError name points_name points_layer)
      | Ok column_info =>
          let column_type := sqlType column_info in
          if negb (sql_type_is_numeric column_type)
          then fatal (NonNumericColumnError name points_name column_type)
          else check_columns input_vector_columns points_name points_layer rest
      end
  end.

(** Lines 144-182: the column resolver. *)
Definition resolve (env : Env) (options : Options) : M (list string) :=
  let points_name := points options in
  let points_layer := points_layer options in
  let points_columns := requested_columns options in
  let input_vector_columns := vector_columns env points_name points_layer in
  if negb (PyStr.truthy_list points_columns) then
    let all_column_names := vector_columns_names env points_name points_layer in
    collect_numeric input_vector_columns all_column_names points_columns
  else
    check_columns input_vector_columns points_name points_layer points_columns ;;
    ret points_columns.

(** Lines 186-215: the checks on the names for the new columns. *)
Definition check_names (options : Options) (points_columns : list string)
  : M (list string) :=
  let num_new_columns := length points_columns * length (methods options) in
  if PyStr.truthy (stats_columns options) then
    let stats_columns_names := PyStr.split "," (stats_columns options) in
    let names_provided := length stats_columns_names in
    (if bool_decide (names_provided ≠ num_new_columns)
     then fatal (NameCountMismatchError names_provided (length points_columns)
                   (length (methods options)) num_new_columns)
     else ret tt) ;;
    let num_unique_names :=
      size (list_to_set stats_columns_names : gset string) in
    (if bool_decide (names_provided ≠ num_unique_names)
     then fatal (DuplicateNameError names_provided num_unique_names)
     else ret tt) ;;
    ret stats_columns_names
  else ret [].

(** Lines 217-221. *)
Definition modified_options (options : Options) : list (string * string) :=
  dict_del "method"
    (dict_del "stats_columns"
       (dict_del "points_columns" (options_dict options))).

(** Lines 233-236: the name of the column job [i] writes. *)
Definition stats_column_name (stats_columns_names : list string) (i : nat)
    (points_column method : string) : result string :=
  if PyStr.truthy_list stats_columns_names
  then getitem_list stats_columns_names i
  else Ok (points_column +:+ "_" +:+ method).

(** Lines 237-245: the arguments of the delegated call of one job. *)
Definition job_kwargs (options : Options)
    (points_column method stats_column_name : string) : Kwargs :=
  {| kw_method := method;
     kw_points_column := points_column;
     kw_stats_column := stats_column_name;
     kw_quiet := true;
     kw_options := modified_options options;
     kw_errors := "exit" |}.

(** Lines 232-246: the loop over [enumerate(product(points_columns,
    methods))], from index [i] on. *)
Fixpoint dispatch (env : Env) (options : Options)
    (stats_columns_names : list string) (num_new_columns : nat)
    (i : nat) (jobs : list (string * string)) : M unit :=
  match jobs with
  | [] => ret tt
  | (points_column, method) :: rest =>
      do name <-
        lift (stats_column_name stats_columns_names i points_column method) ;
      run_command env "v.vect.stats"
        (job_kwargs options points_column method name) ;;
      percent i num_new_columns 1 ;;
      dispatch env options stats_columns_names num_new_columns (S i) rest
  end.

(** Lines 184-249: everything after the column resolver. *)
Definition run (env : Env) (options : Options) (points_columns : list string)
  : M Z :=
  let num_new_columns := length points_columns * length (methods options) in
  do stats_columns_names <- check_names options points_columns ;
  dispatch env options stats_columns_names num_new_columns 0
    (product points_columns (methods options)) ;;
  percent 1 1 1 ;;
  ret 0%Z.

Definition main (env : Env) (options : Options) : M Z :=
  do points_columns <- resolve env options ;
  run env options points_columns.

(** ** Observations on columns and logs *)

(** The column is in the mapping with a numeric type. *)
Definition numeric_in (d : gmap string ColumnInfo) (name : string) : bool :=
  match d !! name with
  | Some column_info => sql_type_is_numeric (sqlType column_info)
  | None => false
  end.

(** Every delegated call recorded in the log succeeded; each call is
    judged against the calls before it. *)
Definition all_calls_succeed (env : Env) (log : list event) : Prop :=
  ∀ j kw, calls_of log !! j = Some kw →
          v_vect_stats env (take j (calls_of log)) kw = true.

(** The signal [(a, n)] shows the fraction [p / q] of the work. *)
Definition proportional (e : event) (p q : nat) : Prop :=
  match e with
  | EPercent a n _ => a * q = p * n
  | ECall _ _ => False
  end.

(** The dispatch loop as a relation: [dispatches env options names n i jobs
    log evs r] holds when the loop, entered at index [i] with the jobs
    [jobs] left and the log [log], appends the events [evs] and ends
    with [r]. *)
Inductive dispatches (env : Env) (options : Options) (names : list string)
    (n : nat) : nat → list (string * string) → list event → list event →
    result unit → Prop :=
| dispatches_done i log :
    dispatches env options names n i [] log [] (Ok tt)
| dispatches_no_name i c m rest log e :
    stats_column_name names i c m = Abort e →
    dispatches env options names n i ((c, m) :: rest) log [] (Abort e)
| dispatches_failed i c m rest log nm :
    stats_column_name names i c m = Ok nm →
    v_vect_stats env (calls_of log) (job_kwargs options c m nm) = false →
    dispatches env options names n i ((c, m) :: rest) log
      [ECall "v.vect.stats" (job_kwargs options c m nm)]
      (Abort DelegatedOperationError)
| dispatches_next i c m rest log nm evs r :
    stats_column_name names i c m = Ok nm →
    v_vect_stats env (calls_of log) (job_kwargs options c m nm) = true →
    dispatches env options names n (S i) rest
      (log ++ [ECall "v.vect.stats" (job_kwargs options c m nm);
               EPercent i n 1]) evs r →
    dispatches env options names n i ((c, m) :: rest) log
      (ECall "v.vect.stats" (job_kwargs options c m nm)
         :: EPercent i n 1 :: evs) r.

(** ** Test doubles and sample inputs *)

Module Sample.

(** A points table with one text column among numeric ones. *)
Definition table : list (string * string) :=
  [ ("cat", "INTEGER"); ("label", "TEXT"); ("pop", "integer");
    ("income", "DOUBLE PRECISION") ].

Definition columns_dict : gmap string ColumnInfo :=
  list_to_map
    (map (λ nt, (nt.1, {| name := nt.1; sqlType := nt.2 |})) table).

(** A delegate that always succeeds. *)
Definition always_ok : list Kwargs → Kwargs → bool := λ _ _, true.

(** A delegate that fails on the call with index [k] and on no other. *)
Definition fails_at (k : nat) : list Kwargs → Kwargs → bool :=
  λ earlier _, bool_decide (length earlier ≠ k).

Definition env (delegate : list Kwargs → Kwargs → bool) : Env :=
  {| vector_columns := λ _ _, columns_dict;
     vector_columns_names := λ _ _, map fst table;
     v_vect_stats := delegate |}.

(** A table without any numeric column. *)
Definition text_env : Env :=
  {| vector_columns := λ _ _,
       {[ "label" := {| name := "label"; sqlType := "TEXT" |} ]};
     vector_columns_names := λ _ _, [ "label" ];
     v_vect_stats := always_ok |}.

Definition options (columns methods names : string) : Options :=
  {| points := "schools"; areas := "districts"; type := "point";
     points_layer := "1"; points_cats := EmptyString;
     points_where := EmptyString;
     areas_layer := "1"; areas_cats := EmptyString;
     areas_where := EmptyString;
     method := methods; points_columns := columns;
     count_column := "num_points"; stats_columns := names |}.

End Sample.

(** ** Further observations and sample inputs *)

(** The progress signals of a log, in order, each as [(i, n, s)]. *)
Definition signals_of (log : list event) : list (nat * nat * nat) :=
  omap (λ e, match e with
             | EPercent i n s => Some (i, n, s)
             | ECall _ _ => None
             end) log.

(** The string is ASCII: every byte is below 128. *)
Definition is_ascii (s : string) : Prop :=
  Forall (λ c, nat_of_ascii c < 128) (list_ascii_of_string s).

(** Two characters are the same letter in either case, or the same
    character: the capital letters A..Z are the codes 65..90 and each
    small letter is 32 above its capital. *)
Definition same_letter (a b : ascii) : Prop :=
  a = b ∨
  (65 ≤ nat_of_ascii a ≤ 90 ∧ nat_of_ascii b = nat_of_ascii a + 32) ∨
  (65 ≤ nat_of_ascii b ≤ 90 ∧ nat_of_ascii a = nat_of_ascii b + 32).

(** Two strings that differ at most in the case of their letters. *)
Definition same_ignoring_case (s t : string) : Prop :=
  Forall2 same_letter (list_ascii_of_string s) (list_ascii_of_string t).

Global Instance same_letter_dec a b : Decision (same_letter a b).
Proof. unfold same_letter. apply _. Defined.

Global Instance same_ignoring_case_dec s t : Decision (same_ignoring_case s t).
Proof. unfold same_ignoring_case. apply _. Defined.

Global Instance is_ascii_dec s : Decision (is_ascii s).
Proof. unfold is_ascii. apply _. Defined.

(** Metadata out of step: the ordered name list holds a name the mapping
    does not have. *)
Definition stale_env : Env :=
  {| vector_columns := λ _ _, Sample.columns_dict;
     vector_columns_names := λ _ _, [ "cat"; "ghost"; "pop" ];
     v_vect_stats := Sample.always_ok |}.

(** ** Strings and lists *)

Example split_keeps_empty_pieces :
  PyStr.split "," "a,,b," = ["a"; EmptyString; "b"; EmptyString].
Proof. reflexivity. Qed.

Example numeric_types_ignore_case :
  sql_type_is_numeric "double precision" = true ∧
  sql_type_is_numeric "Int8" = true ∧
  sql_type_is_numeric "TEXT" = false.
Proof. by vm_compute. Qed.

(** The end-to-end scenario with explicit names: the names go to the
    four jobs in enumeration order. *)
Example sample_run_with_names :
  let options := Sample.options "pop,income" "sum,average" "a,b,c,d" in
  main (Sample.env Sample.always_ok) options [] =
    ([ ECall "v.vect.stats" (job_kwargs options "pop" "sum" "a");
       EPercent 0 4 1;
       ECall "v.vect.stats" (job_kwargs options "pop" "average" "b");
       EPercent 1 4 1;
       ECall "v.vect.stats" (job_kwargs options "income" "sum" "c");
       EPercent 2 4 1;
       ECall "v.vect.stats" (job_kwargs options "income" "average" "d");
       EPercent 3 4 1;
       EPercent 1 1 1 ], Ok 0%Z).
Proof. by vm_compute. Qed.

Lemma split_truthy sep s : PyStr.truthy_list (PyStr.split sep s) = true.
Proof.
  induction s as [|c s IH]; simpl; [done|].
  destruct (Ascii.eqb c sep); [done|].
  destruct (PyStr.split sep s); done.
Qed.

Lemma requested_columns_given options :
  PyStr.truthy (points_columns options) = true →
  requested_columns options = PyStr.split "," (points_columns options) ∧
  PyStr.truthy_list (requested_columns options) = true.
Proof.
  intros H. unfold requested_columns. rewrite H.
  split; [done | apply split_truthy].
Qed.

Lemma requested_columns_absent options :
  points_columns options = EmptyString → requested_columns options = [].
Proof. intros H. unfold requested_columns. by rewrite H. Qed.

Lemma filter_none {A} (P : A → Prop) `{∀ x, Decision (P x)} (l : list A) :
  (∀ x, x ∈ l → ¬ P x) → filter P l = [].
Proof.
  induction l as [|x l IH]; intros Hl; [done|].
  rewrite filter_cons_False by (apply Hl; set_solver).
  apply IH. intros y Hy. apply Hl. set_solver.
Qed.

(** ** [itertools.product] *)

Section Product.
Context {A B : Type}.
Implicit Types (xs : list A) (ys : list B).

Lemma product_cons x xs ys :
  product (x :: xs) ys = map (pair x) ys ++ product xs ys.
Proof. reflexivity. Qed.

Lemma product_length xs ys :
  length (product xs ys) = length xs * length ys.
Proof.
  induction xs as [|x xs IH]; [done|].
  rewrite product_cons, length_app, length_map, IH. simpl. lia.
Qed.

(** Entry [i] pairs element [i / |ys|] of [xs] with element
    [i mod |ys|] of [ys]. *)
Lemma product_lookup xs ys i :
  i < length xs * length ys →
  ∃ x y, xs !! (i / length ys) = Some x ∧
         ys !! (i mod length ys) = Some y ∧
         product xs ys !! i = Some (x, y).
Proof.
  revert i. induction xs as [|x xs IH]; intros i Hi; [simpl in Hi; lia|].
  assert (0 < length ys) as Hpos by (destruct ys; simpl in *; lia).
  rewrite product_cons.
  destruct (decide (i < length ys)) as [Hlt|Hge].
  - destruct (lookup_lt_is_Some_2 ys i Hlt) as [y Hy].
    exists x, y. rewrite Nat.div_small, Nat.mod_small by done.
    split_and!; [done | done |].
    rewrite lookup_app_l by (by rewrite length_map).
    by rewrite list_lookup_fmap, Hy.
  - destruct (IH (i - length ys)) as (x' & y & Hx & Hy & Hxy).
    { simpl in Hi. lia. }
    assert (i = (i - length ys) + 1 * length ys) as Hsplit by lia.
    exists x', y. rewrite Hsplit.
    rewrite Nat.div_add, Nat.Div0.mod_add by lia.
    split_and!.
    + by replace ((i - length ys) / length ys + 1)
        with (S ((i - length ys) / length ys)) by lia.
    + done.
    + rewrite lookup_app_r by (rewrite length_map; lia).
      rewrite length_map.
      by replace (i - length ys + 1 * length ys - length ys)
        with (i - length ys) by lia.
Qed.

Lemma product_lookup_inv xs ys i x y :
  product xs ys !! i = Some (x, y) →
  xs !! (i / length ys) = Some x ∧ ys !! (i mod length ys) = Some y.
Proof.
  intros H.
  assert (i < length xs * length ys) as Hi.
  { rewrite <- product_length. by eapply lookup_lt_Some. }
  destruct (product_lookup xs ys i Hi) as (x' & y' & Hx & Hy & Hxy).
  rewrite H in Hxy. by simplify_eq.
Qed.
End Product.

(** ** The monad *)

Lemma bind_ok {A B} (m : M A) (k : A → M B) log log' a :
  m log = (log', Ok a) → bind m k log = k a log'.
Proof. intros H. unfold bind. by rewrite H. Qed.

Lemma bind_abort {A B} (m : M A) (k : A → M B) log log' e :
  m log = (log', Abort e) → bind m k log = (log', Abort e).
Proof. intros H. unfold bind. by rewrite H. Qed.

Lemma calls_of_app log1 log2 :
  calls_of (log1 ++ log2) = calls_of log1 ++ calls_of log2.
Proof. unfold calls_of. apply omap_app. Qed.

(** ** The column resolver *)

Lemma collect_numeric_spec d names acc log :
  (∀ n, n ∈ names → is_Some (d !! n)) →
  collect_numeric d names acc log =
    (log, Ok (acc ++ filter (λ n, numeric_in d n = true) names)).
Proof.
  revert acc. induction names as [|n names IH]; intros acc Hin; simpl.
  - unfold ret. by rewrite app_nil_r.
  - destruct (Hin n) as [ci Hci]; [set_solver|].
    assert (∀ n', n' ∈ names → is_Some (d !! n')) as Hin' by set_solver.
    assert (numeric_in d n = sql_type_is_numeric (sqlType ci)) as Hnum.
    { unfold numeric_in. by rewrite Hci. }
    unfold bind, lift, getitem. rewrite Hci. rewrite filter_cons.
    destruct (sql_type_is_numeric (sqlType ci)).
    + rewrite decide_True by done. rewrite IH by done.
      by rewrite <- app_assoc.
    + rewrite decide_False by congruence. by rewrite IH.
Qed.

Lemma collect_numeric_log d names acc log :
  (collect_numeric d names acc log).1 = log.
Proof.
  revert acc. induction names as [|n names IH]; intros acc; simpl; [done|].
  unfold bind, lift, getitem.
  destruct (d !! n) as [ci|]; [|done].
  destruct (sql_type_is_numeric (sqlType ci)); apply IH.
Qed.

Lemma check_columns_log d pn pl names log :
  (check_columns d pn pl names log).1 = log.
Proof.
  induction names as [|n names IH]; simpl; [done|].
  unfold getitem. destruct (d !! n) as [ci|]; [|done].
  destruct (sql_type_is_numeric (sqlType ci)); [apply IH | done].
Qed.

Lemma check_columns_ok d pn pl names log :
  Forall (λ n, numeric_in d n = true) names →
  check_columns d pn pl names log = (log, Ok tt).
Proof.
  induction 1 as [|n names Hn _ IH]; simpl; [done|].
  unfold numeric_in in Hn. unfold getitem.
  destruct (d !! n) as [ci|]; [|done]. by rewrite Hn.
Qed.

(** The first name that fails a check decides the error. *)
Lemma check_columns_missing d pn pl pre bad post log :
  Forall (λ n, numeric_in d n = true) pre →
  d !! bad = None →
  check_columns d pn pl (pre ++ bad :: post) log =
    (log, Abort (ColumnNotFoundError bad pn pl)).
Proof.
  intros Hpre Hbad. induction Hpre as [|n pre Hn _ IH]; simpl.
  - unfold getitem. by rewrite Hbad.
  - unfold numeric_in in Hn. unfold getitem.
    destruct (d !! n) as [ci|]; [|done]. by rewrite Hn.
Qed.

Lemma check_columns_non_numeric d pn pl pre bad post ci log :
  Forall (λ n, numeric_in d n = true) pre →
  d !! bad = Some ci →
  sql_type_is_numeric (sqlType ci) = false →
  check_columns d pn pl (pre ++ bad :: post) log =
    (log, Abort (NonNumericColumnError bad pn (sqlType ci))).
Proof.
  intros Hpre Hbad Hty. induction Hpre as [|n pre Hn _ IH]; simpl.
  - unfold getitem. by rewrite Hbad, Hty.
  - unfold numeric_in in Hn. unfold getitem.
    destruct (d !! n) as [ci'|]; [|done]. by rewrite Hn.
Qed.

Lemma resolve_log env options log : (resolve env options log).1 = log.
Proof.
  unfold resolve.
  destruct (PyStr.truthy_list (requested_columns options)); simpl.
  - unfold bind.
    pose proof (check_columns_log
      (vector_columns env (points options) (points_layer options))
      (points options) (points_layer options)
      (requested_columns options) log) as H.
    destruct (check_columns _ _ _ _ log) as [log' [[]|e]]; simpl in *; done.
  - apply collect_numeric_log.
Qed.

(** ** The checks on the supplied names *)

Lemma check_names_log options cols log :
  (check_names options cols log).1 = log.
Proof.
  unfold check_names.
  destruct (PyStr.truthy (stats_columns options)); [|done].
  unfold bind, fatal, lift, ret.
  repeat case_bool_decide; done.
Qed.

Lemma check_names_mismatch options cols log :
  PyStr.truthy (stats_columns options) = true →
  length (stats_columns_names options)
    ≠ length cols * length (methods options) →
  check_names options cols log =
    (log, Abort (NameCountMismatchError
                   (length (stats_columns_names options))
                   (length cols) (length (methods options))
                   (length cols * length (methods options)))).
Proof.
  unfold check_names, stats_columns_names. intros -> Hne.
  unfold bind, fatal, lift. by rewrite bool_decide_true.
Qed.

Lemma check_names_duplicate options cols log :
  PyStr.truthy (stats_columns options) = true →
  length (stats_columns_names options)
    = length cols * length (methods options) →
  length (stats_columns_names options)
    ≠ size (list_to_set (stats_columns_names options) : gset string) →
  check_names options cols log =
    (log, Abort (DuplicateNameError
                   (length (stats_columns_names options))
                   (size (list_to_set (stats_columns_names options)
                            : gset string)))).
Proof.
  unfold check_names, stats_columns_names. intros -> Heq Hne.
  unfold bind, fatal, lift, ret.
  rewrite bool_decide_false by (intros ?; done).
  by rewrite bool_decide_true.
Qed.

(** When the checks pass, the names are the supplied ones and there is
    one for every job. *)
Lemma check_names_ok options cols log log' names :
  check_names options cols log = (log', Ok names) →
  log' = log ∧ names = stats_columns_names options ∧
  (PyStr.truthy_list names = true →
   length names = length cols * length (methods options)).
Proof.
  unfold check_names, stats_columns_names.
  destruct (PyStr.truthy (stats_columns options)).
  - unfold bind, fatal, lift, ret.
    repeat case_bool_decide; intros; simplify_eq.
    split_and!; [done | done |]. intros _. lia.
  - unfold ret. intros; simplify_eq. split_and!; done.
Qed.

Lemma check_names_absent options cols log :
  stats_columns options = EmptyString → check_names options cols log = (log, Ok []).
Proof. intros H. unfold check_names. by rewrite H. Qed.

(** ** The dispatch loop *)

Section Dispatch.
Context (env : Env) (options : Options) (names : list string) (n : nat).

Lemma dispatch_cons i c m rest log :
  dispatch env options names n i ((c, m) :: rest) log =
    match stats_column_name names i c m with
    | Abort e => (log, Abort e)
    | Ok nm =>
        let kw := job_kwargs options c m nm in
        if v_vect_stats env (calls_of log) kw
        then dispatch env options names n (S i) rest
               (log ++ [ECall "v.vect.stats" kw; EPercent i n 1])
        else (log ++ [ECall "v.vect.stats" kw],
              Abort DelegatedOperationError)
    end.
Proof.
  simpl. unfold bind at 1. unfold lift.
  destruct (stats_column_name names i c m) as [nm|e]; [|done].
  unfold bind at 1. unfold run_command. simpl.
  destruct (v_vect_stats env (calls_of log) (job_kwargs options c m nm));
    [|done].
  unfold bind at 1. unfold percent. by rewrite <- app_assoc.
Qed.

(** The loop function runs as the relation says. *)
Lemma dispatch_dispatches jobs : ∀ i log,
  ∃ evs r, dispatch env options names n i jobs log = (log ++ evs, r) ∧
           dispatches env options names n i jobs log evs r.
Proof.
  induction jobs as [|[c m] rest IH]; intros i log.
  - exists [], (Ok tt). rewrite app_nil_r. split; [done | constructor].
  - rewrite dispatch_cons.
    destruct (stats_column_name names i c m) as [nm|e] eqn:Hname.
    + simpl.
      destruct (v_vect_stats env (calls_of log) (job_kwargs options c m nm))
        eqn:Hok.
      * destruct (IH (S i)
          (log ++ [ECall "v.vect.stats" (job_kwargs options c m nm);
                   EPercent i n 1])) as (evs & r & Hrun & Hrel).
        eexists _, r. split; [|by eapply dispatches_next].
        rewrite Hrun. by rewrite <- app_assoc.
      * eexists _, _. split; [done | by apply dispatches_failed].
    + exists [], (Abort e). rewrite app_nil_r.
      split; [done | by apply dispatches_no_name].
Qed.

Lemma calls_of_step kw (i' : nat) evs :
  calls_of (ECall "v.vect.stats" kw :: EPercent i' n 1 :: evs)
  = kw :: calls_of evs.
Proof. reflexivity. Qed.

Lemma calls_of_log_step log kw (i' : nat) :
  calls_of (log ++ [ECall "v.vect.stats" kw; EPercent i' n 1])
  = calls_of log ++ [kw].
Proof. by rewrite calls_of_app. Qed.

(** Every call in the log is the call of the job at its index. *)
Lemma dispatches_sound i jobs log evs r :
  dispatches env options names n i jobs log evs r →
  ∀ j kw, calls_of evs !! j = Some kw →
    ∃ c m, jobs !! j = Some (c, m) ∧
           stats_column_name names (i + j) c m = Ok (kw_stats_column kw) ∧
           kw = job_kwargs options c m (kw_stats_column kw).
Proof.
  induction 1 as [ | | i c m rest log nm Hname Hfail
                   | i c m rest log nm evs r Hname Hok _ IH ];
    intros j kw Hj; [done | done | |].
  - destruct j as [|j]; [|done]. simpl in Hj. simplify_eq.
    exists c, m. by rewrite Nat.add_0_r.
  - rewrite calls_of_step in Hj. destruct j as [|j]; simpl in Hj.
    + simplify_eq. exists c, m. by rewrite Nat.add_0_r.
    + destruct (IH j kw Hj) as (c' & m' & Hjob & Hnm & Hkw).
      exists c', m'. by replace (i + S j) with (S i + j) by lia.
Qed.

(** A failed call is the last event of the run. *)
Lemma dispatches_fail_fast i jobs log evs r :
  dispatches env options names n i jobs log evs r →
  ∀ j kw, calls_of evs !! j = Some kw →
    v_vect_stats env (calls_of log ++ take j (calls_of evs)) kw = false →
    length (calls_of evs) = S j ∧ r = Abort DelegatedOperationError ∧
    last evs = Some (ECall "v.vect.stats" kw).
Proof.
  induction 1 as [ | | i c m rest log nm Hname Hfail
                   | i c m rest log nm evs r Hname Hok _ IH ];
    intros j kw Hj Hbad; [done | done | |].
  - destruct j as [|j]; [|done]. simpl in Hj. by simplify_eq.
  - rewrite calls_of_step in Hj, Hbad |- *. destruct j as [|j]; simpl in *.
    + simplify_eq. rewrite app_nil_r in Hbad. congruence.
    + destruct (IH j kw Hj) as (Hlen & Hr & Hlast).
      { rewrite calls_of_log_step, <- app_assoc. exact Hbad. }
      split_and!; [by rewrite Hlen | done |].
      destruct evs; [done | exact Hlast].
Qed.

(** Call [j] sits at position [2 j] of the log, and when it succeeded
    the signal [percent(i + j, n, 1)] follows it. *)
Lemma dispatches_progress i jobs log evs r :
  dispatches env options names n i jobs log evs r →
  ∀ j kw, calls_of evs !! j = Some kw →
    evs !! (2 * j) = Some (ECall "v.vect.stats" kw) ∧
    (v_vect_stats env (calls_of log ++ take j (calls_of evs)) kw = true →
     evs !! (2 * j + 1) = Some (EPercent (i + j) n 1)).
Proof.
  induction 1 as [ | | i c m rest log nm Hname Hfail
                   | i c m rest log nm evs r Hname Hok _ IH ];
    intros j kw Hj; [done | done | |].
  - destruct j as [|j]; [|done]. simpl in Hj. simplify_eq.
    split; [done|]. simpl. rewrite app_nil_r. congruence.
  - rewrite calls_of_step in Hj |- *. destruct j as [|j]; simpl in Hj.
    + simplify_eq. split; [done|]. intros _. simpl. by rewrite Nat.add_0_r.
    + destruct (IH j kw Hj) as [Hcall Hpercent].
      replace (2 * S j) with (S (S (2 * j))) by lia.
      split; [exact Hcall|]. intros Hgood. simpl.
      replace (i + S j) with (S i + j) by lia.
      apply Hpercent.
      rewrite calls_of_log_step, <- app_assoc. exact Hgood.
Qed.

(** With a name for every job and no failed call, the loop runs every
    job and ends normally. *)
Lemma dispatches_complete i jobs log evs r :
  dispatches env options names n i jobs log evs r →
  (PyStr.truthy_list names = true → i + length jobs ≤ length names) →
  (∀ j kw, calls_of evs !! j = Some kw →
     v_vect_stats env (calls_of log ++ take j (calls_of evs)) kw = true) →
  r = Ok tt ∧ length (calls_of evs) = length jobs.
Proof.
  induction 1 as [ | i c m rest log e Hname
                   | i c m rest log nm Hname Hfail
                   | i c m rest log nm evs r Hname Hok _ IH ];
    intros Hnames Hgood; [done | | |].
  - exfalso. unfold stats_column_name, getitem_list in Hname.
    destruct (PyStr.truthy_list names); [|done].
    destruct (names !! i) eqn:Hi; [done|].
    apply lookup_ge_None in Hi. specialize (Hnames eq_refl).
    simpl in Hnames. lia.
  - exfalso. specialize (Hgood 0 _ eq_refl). simpl in Hgood.
    rewrite app_nil_r in Hgood. congruence.
  - destruct IH as [Hr Hlen].
    + intros Ht. specialize (Hnames Ht). simpl in Hnames. lia.
    + intros j kw Hj. rewrite calls_of_log_step, <- app_assoc.
      apply (Hgood (S j) kw). by rewrite calls_of_step.
    + split; [done|]. rewrite calls_of_step. simpl. by rewrite Hlen.
Qed.
(** Every signal of the loop is [percent(a, n, 1)] for the index [a] of
    one of its jobs. *)
Lemma dispatches_signals i jobs log evs r :
  dispatches env options names n i jobs log evs r →
  ∀ p a b s, evs !! p = Some (EPercent a b s) →
    b = n ∧ s = 1 ∧ i ≤ a < i + length jobs.
Proof.
  induction 1 as [ | | i c m rest log nm Hname Hfail
                   | i c m rest log nm evs r Hname Hok _ IH ];
    intros p a b s Hp; [done | done | |].
  - by destruct p as [|[|p]].
  - destruct p as [|[|p]]; simpl in Hp.
    + done.
    + simplify_eq. simpl. lia.
    + destruct (IH p a b s Hp) as (-> & -> & Ha). simpl. lia.
Qed.
End Dispatch.

(** ** The whole run *)

Lemma numeric_in_spec d n :
  numeric_in d n = true ↔
  ∃ ci, d !! n = Some ci ∧ sql_type_is_numeric (sqlType ci) = true.
Proof.
  unfold numeric_in. destruct (d !! n) as [ci|]; split.
  - intros H. by exists ci.
  - intros (ci' & ? & ?). by simplify_eq.
  - done.
  - intros (ci' & ? & ?). done.
Qed.

Lemma main_run env options cols :
  (resolve env options []).2 = Ok cols →
  main env options [] = run env options cols [].
Proof.
  intros H. pose proof (resolve_log env options []) as Hlog.
  unfold main. apply bind_ok.
  destruct (resolve env options []) as [log r]. simpl in *. by subst.
Qed.

(** A run either stops at the checks on the names, with an empty log, or
    enters the loop; the final signal follows a loop that ended normally. *)
Lemma run_cases env options cols :
  (∃ e, check_names options cols [] = ([], Abort e) ∧
        run env options cols [] = ([], Abort e)) ∨
  (∃ names evs r,
      check_names options cols [] = ([], Ok names) ∧
      dispatches env options names (length cols * length (methods options))
        0 (product cols (methods options)) [] evs r ∧
      run env options cols [] =
        match r with
        | Ok _ => (evs ++ [EPercent 1 1 1], Ok 0%Z)
        | Abort e => (evs, Abort e)
        end).
Proof.
  pose proof (check_names_log options cols []) as Hlog.
  destruct (check_names options cols []) as [log [names|e]] eqn:Hcheck;
    simpl in Hlog; subst log.
  - right.
    destruct (dispatch_dispatches env options names
                (length cols * length (methods options))
                (product cols (methods options)) 0 [])
      as (evs & r & Hrun & Hrel).
    exists names, evs, r. split_and!; [done | done |].
    unfold run. rewrite (bind_ok _ _ _ _ _ Hcheck).
    simpl in Hrun. destruct r as [[]|e].
    + by rewrite (bind_ok _ _ _ _ _ Hrun).
    + by rewrite (bind_abort _ _ _ _ _ Hrun).
  - left. exists e. split; [done|].
    unfold run. by rewrite (bind_abort _ _ _ _ _ Hcheck).
Qed.

Lemma calls_of_final evs :
  calls_of (evs ++ [EPercent 1 1 1]) = calls_of evs.
Proof. rewrite calls_of_app. simpl. by rewrite app_nil_r. Qed.

(** The calls of a run are the calls of its loop. *)
Lemma run_entered env options cols evs (r : result unit) :
  run env options cols [] =
    match r with
    | Ok _ => (evs ++ [EPercent 1 1 1], Ok 0%Z)
    | Abort e => (evs, Abort e)
    end →
  calls_of (run env options cols []).1 = calls_of evs ∧
  (∀ p e, evs !! p = Some e → (run env options cols []).1 !! p = Some e).
Proof.
  intros ->. destruct r as [[]|e]; simpl.
  - split; [apply calls_of_final|]. intros p e Hp. by apply lookup_app_l_Some.
  - done.
Qed.

(** A run that issued a call passed the checks and entered the loop. *)
Lemma run_with_call env options cols k kw :
  calls_of (run env options cols []).1 !! k = Some kw →
  ∃ names evs r,
    check_names options cols [] = ([], Ok names) ∧
    dispatches env options names (length cols * length (methods options))
      0 (product cols (methods options)) [] evs r ∧
    run env options cols [] =
      match r with
      | Ok _ => (evs ++ [EPercent 1 1 1], Ok 0%Z)
      | Abort e => (evs, Abort e)
      end.
Proof.
  intros Hk.
  destruct (run_cases env options cols)
    as [(e & Hcheck & Hrun) | (names & evs & r & Hcheck & Hrel & Hrun)].
  - rewrite Hrun in Hk. done.
  - by exists names, evs, r.
Qed.

(** A run that passed the checks on the names and in which no call
    failed issues one call for every entry of the product, in order. *)
Lemma run_calls_complete env options cols :
  (∃ names, (check_names options cols []).2 = Ok names) →
  all_calls_succeed env (run env options cols []).1 →
  (λ kw, (kw_points_column kw, kw_method kw))
    <$> calls_of (run env options cols []).1
  = product cols (methods options).
Proof.
  intros [names0 Hpass] Hgood.
  destruct (run_cases env options cols)
    as [(e & Hcheck & _) | (names & evs & r & Hcheck & Hrel & Hrun)].
  { rewrite Hcheck in Hpass. done. }
  destruct (run_entered _ _ _ _ _ Hrun) as [Hcalls _].
  unfold all_calls_succeed in Hgood. rewrite Hcalls in Hgood |- *.
  destruct (check_names_ok _ _ _ _ _ Hcheck) as (_ & _ & Hnames).
  destruct (dispatches_complete _ _ _ _ _ _ _ _ _ Hrel) as [_ Hlen].
  { intros Ht. rewrite (Hnames Ht), product_length. simpl. lia. }
  { exact Hgood. }
  apply list_eq. intros i. rewrite list_lookup_fmap.
  destruct (calls_of evs !! i) as [kw|] eqn:Hi; simpl.
  - destruct (dispatches_sound _ _ _ _ _ _ _ _ _ Hrel i kw Hi)
      as (c & m & Hjob & _ & ->).
    by rewrite Hjob.
  - apply lookup_ge_None in Hi. rewrite Hlen in Hi.
    symmetry. by apply lookup_ge_None.
Qed.

(** A signal that shows all of the work done is the final signal, the
    last event of a run that returns. *)
Lemma run_full_signal env options cols p e :
  (run env options cols []).1 !! p = Some e →
  proportional e 1 1 →
  e = EPercent 1 1 1 ∧ S p = length (run env options cols []).1 ∧
  (run env options cols []).2 = Ok 0%Z.
Proof.
  destruct (run_cases env options cols)
    as [(e' & _ & ->) | (names & evs & r & _ & Hrel & ->)]; [done|].
  assert (∀ q, evs !! q = Some e → proportional e 1 1 → False) as Hloop.
  { intros q Hq Hfull. destruct e as [module kw | a b s]; [done|].
    destruct (dispatches_signals _ _ _ _ _ _ _ _ _ Hrel q a b s Hq)
      as (-> & _ & Ha).
    rewrite product_length in Ha. simpl in Hfull. lia. }
  destruct r as [[]|e']; simpl; intros Hp Hfull.
  - destruct (decide (p < length evs)) as [Hlt|Hge].
    + rewrite lookup_app_l in Hp by done. by destruct (Hloop p).
    + rewrite lookup_app_r in Hp by lia.
      destruct (p - length evs) as [|k] eqn:Hk; simpl in Hp; [|done].
      simplify_eq. rewrite length_app. simpl. split_and!; [done | lia | done].
  - by destruct (Hloop p).
Qed.

(** ** Enumeration order and output names *)

(** C1. Jobs are enumerated column-major: entry [i] of the product pairs
    column [i / |methods|] with method [i mod |methods|], there are
    [|columns| * |methods|] entries, the delegated call with index [i] of
    any run carries that column and that method, for two columns and two
    methods the order is (c1,m1), (c1,m2), (c2,m1), (c2,m2), and a run
    that passes the checks on the names and in which no call fails issues
    exactly one call per entry, in this order. *)
Theorem jobs_column_major (cols ms : list string) :
  length (product cols ms) = length cols * length ms ∧
  (∀ i, i < length cols * length ms →
     ∃ c m, cols !! (i / length ms) = Some c ∧
            ms !! (i mod length ms) = Some m ∧
            product cols ms !! i = Some (c, m)) ∧
  (∀ env options i kw,
     (resolve env options []).2 = Ok cols →
     methods options = ms →
     calls_of (main env options []).1 !! i = Some kw →
     cols !! (i / length ms) = Some (kw_points_column kw) ∧
     ms !! (i mod length ms) = Some (kw_method kw)) ∧
  (∀ c1 c2 m1 m2 : string,
     product [c1; c2] [m1; m2] = [(c1, m1); (c1, m2); (c2, m1); (c2, m2)]) ∧
  (∀ env options,
     (resolve env options []).2 = Ok cols →
     methods options = ms →
     (∃ names, (check_names options cols []).2 = Ok names) →
     all_calls_succeed env (main env options []).1 →
     (λ kw, (kw_points_column kw, kw_method kw))
       <$> calls_of (main env options []).1
     = product cols ms).
Proof.
  split_and!; [| | | | intros env options Hres <- Hpass;
                       rewrite (main_run _ _ _ Hres);
                       by apply run_calls_complete].
  - apply product_length.
  - apply product_lookup.
  - intros env options i kw Hres <- Hi.
    rewrite (main_run _ _ _ Hres) in Hi.
    destruct (run_with_call _ _ _ _ _ Hi)
      as (names & evs & r & _ & Hrel & Hrun).
    destruct (run_entered _ _ _ _ _ Hrun) as [Hcalls _].
    rewrite Hcalls in Hi.
    destruct (dispatches_sound _ _ _ _ _ _ _ _ _ Hrel i kw Hi)
      as (c & m & Hjob & _ & ->).
    apply product_lookup_inv in Hjob. exact Hjob.
  - reflexivity.
Qed.

(** Two columns and two methods: the call with index 2 is for the second
    column and the first method, and the run issues the four calls in
    column-major order. *)
Lemma jobs_column_major_witness :
  let env := Sample.env Sample.always_ok in
  let options := Sample.options "pop,income" "sum,average" EmptyString in
  (resolve env options []).2 = Ok ["pop"; "income"] ∧
  methods options = ["sum"; "average"] ∧
  (∃ names, (check_names options ["pop"; "income"] []).2 = Ok names) ∧
  all_calls_succeed env (main env options []).1 ∧
  (["pop"; "income"] !! (2 / 2) = Some "income" ∧
   ["sum"; "average"] !! (2 mod 2) = Some "sum") ∧
  (λ kw, (kw_points_column kw, kw_method kw))
    <$> calls_of (main env options []).1
  = [("pop", "sum"); ("pop", "average");
     ("income", "sum"); ("income", "average")].
Proof.
  intros env options.
  assert (∃ names, (check_names options ["pop"; "income"] []).2 = Ok names)
    as Hpass by (exists []; reflexivity).
  assert (all_calls_succeed env (main env options []).1) as Hgood
    by (intros j kw _; reflexivity).
  destruct (jobs_column_major ["pop"; "income"] ["sum"; "average"])
    as (_ & _ & Hcall & _ & Hall).
  split; [reflexivity|]. split; [reflexivity|].
  split; [exact Hpass|]. split; [exact Hgood|]. split.
  - apply (Hcall env options 2
             (job_kwargs options "income" "sum" "income_sum")).
    + reflexivity.
    + reflexivity.
    + vm_compute. reflexivity.
  - exact (Hall env options eq_refl eq_refl Hpass Hgood).
Defined.

(** C4. Without a stats_columns list every delegated call writes the
    column named after its source column and its method, and a run whose
    calls all succeed issues exactly those calls, in enumeration order. *)
Theorem default_output_names env options cols :
  (resolve env options []).2 = Ok cols →
  stats_columns options = EmptyString →
  (∀ i kw, calls_of (main env options []).1 !! i = Some kw →
     ∃ c m, product cols (methods options) !! i = Some (c, m) ∧
            kw_points_column kw = c ∧ kw_method kw = m ∧
            kw_stats_column kw = c +:+ "_" +:+ m) ∧
  (all_calls_succeed env (main env options []).1 →
   (λ kw, (kw_points_column kw, kw_method kw, kw_stats_column kw))
     <$> calls_of (main env options []).1
   = (λ cm, (cm.1, cm.2, cm.1 +:+ "_" +:+ cm.2))
     <$> product cols (methods options)).
Proof.
  intros Hres Hnone. rewrite (main_run _ _ _ Hres).
  assert (∀ i kw, calls_of (run env options cols []).1 !! i = Some kw →
     ∃ c m, product cols (methods options) !! i = Some (c, m) ∧
            kw_points_column kw = c ∧ kw_method kw = m ∧
            kw_stats_column kw = c +:+ "_" +:+ m) as Hsound.
  { intros i kw Hi.
    destruct (run_with_call _ _ _ _ _ Hi)
      as (names & evs & r & Hcheck & Hrel & Hrun).
    rewrite (check_names_absent _ _ _ Hnone) in Hcheck. simplify_eq.
    destruct (run_entered _ _ _ _ _ Hrun) as [Hcalls _].
    rewrite Hcalls in Hi.
    destruct (dispatches_sound _ _ _ _ _ _ _ _ _ Hrel i kw Hi)
      as (c & m & Hjob & Hname & ->).
    exists c, m. simpl in *. split_and!; [done | done | done |].
    unfold stats_column_name in Hname. simpl in Hname. congruence. }
  split; [exact Hsound|].
  intros Hgood.
  destruct (run_cases env options cols)
    as [(e & Hcheck & _) | (names & evs & r & Hcheck & Hrel & Hrun)].
  { rewrite (check_names_absent _ _ _ Hnone) in Hcheck. done. }
  rewrite (check_names_absent _ _ _ Hnone) in Hcheck. simplify_eq.
  destruct (run_entered _ _ _ _ _ Hrun) as [Hcalls _].
  unfold all_calls_succeed in Hgood. rewrite Hcalls in Hgood.
  destruct (dispatches_complete _ _ _ _ _ _ _ _ _ Hrel) as [_ Hlen];
    [done | exact Hgood |].
  apply list_eq. intros i. rewrite !list_lookup_fmap.
  destruct (calls_of (run env options cols []).1 !! i) as [kw|] eqn:Hi.
  - destruct (Hsound i kw Hi) as (c & m & Hjob & <- & <- & Hname).
    rewrite Hjob. simpl. by rewrite Hname.
  - apply lookup_ge_None in Hi. rewrite Hcalls, Hlen in Hi.
    apply lookup_ge_None in Hi. by rewrite Hi.
Qed.

(** The names generated for two columns and two methods. *)
Lemma default_output_names_witness :
  let env := Sample.env Sample.always_ok in
  let options := Sample.options "pop,income" "sum,average" EmptyString in
  (resolve env options []).2 = Ok ["pop"; "income"] ∧
  stats_columns options = EmptyString ∧
  all_calls_succeed env (main env options []).1 ∧
  (λ kw, (kw_points_column kw, kw_method kw, kw_stats_column kw))
    <$> calls_of (main env options []).1
  = [ ("pop", "sum", "pop_sum"); ("pop", "average", "pop_average");
      ("income", "sum", "income_sum");
      ("income", "average", "income_average") ].
Proof.
  intros env options.
  assert (all_calls_succeed env (main env options []).1) as Hgood
    by (intros j kw _; reflexivity).
  split; [reflexivity|]. split; [reflexivity|]. split; [exact Hgood|].
  destruct (default_output_names env options ["pop"; "income"]
              eq_refl eq_refl) as [_ H].
  rewrite (H Hgood). reflexivity.
Defined.

(** ** Validation of the supplied names *)

(** C2. When a stats_columns list is supplied and its length differs
    from the number of (column, method) pairs, the run fails with the
    count-mismatch error, which carries the supplied count and the
    required count, and no delegated call is issued. *)
Theorem name_count_mismatch env options cols :
  (resolve env options []).2 = Ok cols →
  PyStr.truthy (stats_columns options) = true →
  length (stats_columns_names options)
    ≠ length cols * length (methods options) →
  main env options [] =
    ([], Abort (NameCountMismatchError
                  (length (stats_columns_names options))
                  (length cols) (length (methods options))
                  (length cols * length (methods options)))) ∧
  calls_of (main env options []).1 = [].
Proof.
  intros Hres Hgiven Hne. rewrite (main_run _ _ _ Hres).
  assert (run env options cols [] =
    ([], Abort (NameCountMismatchError
                  (length (stats_columns_names options))
                  (length cols) (length (methods options))
                  (length cols * length (methods options))))) as Hrun.
  { unfold run. eapply bind_abort. by apply check_names_mismatch. }
  by rewrite Hrun.
Qed.

(** Three names for four jobs. *)
Lemma name_count_mismatch_witness :
  let env := Sample.env Sample.always_ok in
  let options := Sample.options "pop,income" "sum,average" "a,b,c" in
  (resolve env options []).2 = Ok ["pop"; "income"] ∧
  PyStr.truthy (stats_columns options) = true ∧
  length (stats_columns_names options) ≠ 2 * length (methods options) ∧
  main env options [] = ([], Abort (NameCountMismatchError 3 2 2 4)).
Proof.
  intros env options.
  assert (length (stats_columns_names options)
            ≠ length ["pop"; "income"] * length (methods options)) as Hne
    by (vm_compute; lia).
  split; [reflexivity|]. split; [reflexivity|]. split; [exact Hne|].
  exact (proj1 (name_count_mismatch env options ["pop"; "income"]
                  eq_refl eq_refl Hne)).
Defined.

(** C3, as stated, fails: the count check comes first, so a list with a
    duplicate whose length is not the required one ends with the
    count-mismatch error. *)
Lemma duplicate_names_counterexample :
  let env := Sample.env Sample.always_ok in
  let options := Sample.options "pop" "sum" "a,a" in
  PyStr.truthy (stats_columns options) = true ∧
  size (list_to_set (stats_columns_names options) : gset string)
    < length (stats_columns_names options) ∧
  main env options [] = ([], Abort (NameCountMismatchError 2 1 1 1)) ∧
  ∀ provided unique,
    (main env options []).2 ≠ Abort (DuplicateNameError provided unique).
Proof.
  intros env options.
  assert (main env options [] = ([], Abort (NameCountMismatchError 2 1 1 1)))
    as Hmain by (vm_compute; reflexivity).
  split_and!; [reflexivity | vm_compute; lia | exact Hmain |].
  intros provided unique. rewrite Hmain. simpl. discriminate.
Qed.

(** C3, amended. When the supplied list has the required length and
    holds a duplicate, the run fails with the duplicate-name error, which
    carries the number of names given and the number of distinct names,
    and no delegated call is issued. *)
Theorem duplicate_names_rejected env options cols :
  (resolve env options []).2 = Ok cols →
  PyStr.truthy (stats_columns options) = true →
  length (stats_columns_names options)
    = length cols * length (methods options) →
  size (list_to_set (stats_columns_names options) : gset string)
    < length (stats_columns_names options) →
  main env options [] =
    ([], Abort (DuplicateNameError
                  (length (stats_columns_names options))
                  (size (list_to_set (stats_columns_names options)
                           : gset string)))) ∧
  calls_of (main env options []).1 = [].
Proof.
  intros Hres Hgiven Hlen Hdup. rewrite (main_run _ _ _ Hres).
  assert (run env options cols [] =
    ([], Abort (DuplicateNameError
                  (length (stats_columns_names options))
                  (size (list_to_set (stats_columns_names options)
                           : gset string))))) as Hrun.
  { unfold run. eapply bind_abort.
    apply check_names_duplicate; [done | done | lia]. }
  by rewrite Hrun.
Qed.

(** Four names for four jobs, one of them given twice. *)
Lemma duplicate_names_rejected_witness :
  let env := Sample.env Sample.always_ok in
  let options := Sample.options "pop,income" "sum,average" "a,b,c,a" in
  (resolve env options []).2 = Ok ["pop"; "income"] ∧
  PyStr.truthy (stats_columns options) = true ∧
  length (stats_columns_names options) = 2 * length (methods options) ∧
  size (list_to_set (stats_columns_names options) : gset string)
    < length (stats_columns_names options) ∧
  main env options [] = ([], Abort (DuplicateNameError 4 3)).
Proof.
  intros env options.
  assert (size (list_to_set (stats_columns_names options) : gset string)
            < length (stats_columns_names options)) as Hdup
    by (vm_compute; lia).
  split; [reflexivity|]. split; [reflexivity|]. split; [reflexivity|].
  split; [exact Hdup|].
  exact (proj1 (duplicate_names_rejected env options ["pop"; "income"]
                  eq_refl eq_refl eq_refl Hdup)).
Defined.

(** ** The column resolver: claims *)

Lemma resolve_absent env options :
  points_columns options = EmptyString →
  (∀ n, n ∈ vector_columns_names env (points options) (points_layer options) →
        is_Some (vector_columns env (points options) (points_layer options)
                   !! n)) →
  resolve env options [] =
    ([], Ok (filter
               (λ n, numeric_in
                       (vector_columns env (points options)
                          (points_layer options)) n = true)
               (vector_columns_names env (points options)
                  (points_layer options)))).
Proof.
  intros Hnone Hin. unfold resolve.
  rewrite (requested_columns_absent _ Hnone). simpl.
  by rewrite collect_numeric_spec.
Qed.

(** C5. When no column is requested, the resolver returns the names of
    the table's ordered name list whose SQL type is numeric, in the
    table's order. *)
Theorem resolve_all_numeric env options :
  let d := vector_columns env (points options) (points_layer options) in
  let all_column_names :=
    vector_columns_names env (points options) (points_layer options) in
  points_columns options = EmptyString →
  (∀ n, n ∈ all_column_names → is_Some (d !! n)) →
  resolve env options [] =
    ([], Ok (filter (λ n, numeric_in d n = true) all_column_names)).
Proof.
  intros d all_column_names Hnone Hin. by apply resolve_absent.
Qed.

(** The sample table: the text column is left out, the others keep their
    order. *)
Lemma resolve_all_numeric_witness :
  let env := Sample.env Sample.always_ok in
  let options := Sample.options EmptyString "sum" EmptyString in
  points_columns options = EmptyString ∧
  (∀ n, n ∈ vector_columns_names env (points options) (points_layer options) →
        is_Some (vector_columns env (points options) (points_layer options)
                   !! n)) ∧
  resolve env options [] = ([], Ok ["cat"; "pop"; "income"]).
Proof.
  intros env options.
  assert (∀ n,
    n ∈ vector_columns_names env (points options) (points_layer options) →
    is_Some (vector_columns env (points options) (points_layer options) !! n))
    as Hin.
  { intros n Hn. simpl in Hn.
    repeat (apply elem_of_cons in Hn as [-> | Hn]; [by eexists|]).
    by apply elem_of_nil in Hn. }
  split; [reflexivity|]. split; [exact Hin|].
  exact (resolve_all_numeric env options eq_refl Hin).
Defined.

(** C6, as stated, fails: the columns are checked one by one and the
    first one that fails decides the error, so a request that names a
    text column before a missing one ends with the non-numeric error. *)
Lemma requested_columns_counterexample :
  let env := Sample.env Sample.always_ok in
  let options := Sample.options "label,missing" "sum" EmptyString in
  let d := vector_columns env (points options) (points_layer options) in
  "missing" ∈ requested_columns options ∧
  d !! "missing" = None ∧
  resolve env options [] =
    ([], Abort (NonNumericColumnError "label" "schools" "TEXT")) ∧
  ∀ n pn pl, (resolve env options []).2 ≠ Abort (ColumnNotFoundError n pn pl).
Proof.
  intros env options d.
  assert (resolve env options [] =
    ([], Abort (NonNumericColumnError "label" "schools" "TEXT"))) as Hres
    by (vm_compute; reflexivity).
  split_and!.
  - vm_compute. apply list_elem_of_further, list_elem_of_here.
  - vm_compute. reflexivity.
  - exact Hres.
  - intros n pn pl. rewrite Hres. simpl. discriminate.
Qed.

(** C6, amended. For a requested column list, the first requested name
    that is absent or not numeric decides the outcome: column-not-found
    when it is absent from the mapping, non-numeric-column (with its type)
    when it is present with a type that is not numeric; when every
    requested name is present and numeric the result is the requested
    list in the requested order. *)
Theorem resolve_requested env options :
  let d := vector_columns env (points options) (points_layer options) in
  let requested := PyStr.split "," (points_columns options) in
  PyStr.truthy (points_columns options) = true →
  (∀ pre bad post,
     requested = pre ++ bad :: post →
     Forall (λ n, numeric_in d n = true) pre →
     d !! bad = None →
     resolve env options [] =
       ([], Abort (ColumnNotFoundError bad (points options)
                     (points_layer options)))) ∧
  (∀ pre bad post ci,
     requested = pre ++ bad :: post →
     Forall (λ n, numeric_in d n = true) pre →
     d !! bad = Some ci →
     sql_type_is_numeric (sqlType ci) = false →
     resolve env options [] =
       ([], Abort (NonNumericColumnError bad (points options) (sqlType ci)))) ∧
  (Forall (λ n, numeric_in d n = true) requested →
   resolve env options [] = ([], Ok requested)).
Proof.
  intros d requested Hgiven.
  destruct (requested_columns_given _ Hgiven) as [Hreq Htruthy].
  fold requested in Hreq.
  assert (resolve env options [] =
    bind (check_columns d (points options) (points_layer options) requested)
         (λ _, ret requested) []) as Hres.
  { unfold resolve. rewrite Htruthy. simpl. by rewrite Hreq. }
  rewrite Hres. split_and!.
  - intros pre bad post -> Hpre Hbad.
    eapply bind_abort. by apply check_columns_missing.
  - intros pre bad post ci -> Hpre Hbad Hty.
    eapply bind_abort. by apply check_columns_non_numeric.
  - intros Hall. erewrite bind_ok; [done|]. by apply check_columns_ok.
Qed.

(** Three requests on the sample table, one for each outcome. *)
Lemma resolve_requested_witness :
  let env := Sample.env Sample.always_ok in
  resolve env (Sample.options "pop,missing,label" "sum" EmptyString) [] =
    ([], Abort (ColumnNotFoundError "missing" "schools" "1")) ∧
  resolve env (Sample.options "pop,label,missing" "sum" EmptyString) [] =
    ([], Abort (NonNumericColumnError "label" "schools" "TEXT")) ∧
  resolve env (Sample.options "income,pop" "sum" EmptyString) [] =
    ([], Ok ["income"; "pop"]).
Proof.
  intros env.
  assert (Forall
    (λ n, numeric_in (vector_columns env "schools" "1") n = true) ["pop"])
    as Hpop by (repeat constructor).
  split_and!.
  - destruct (resolve_requested env
                (Sample.options "pop,missing,label" "sum" EmptyString) eq_refl)
      as (H & _ & _).
    exact (H ["pop"] "missing" ["label"] eq_refl Hpop eq_refl).
  - destruct (resolve_requested env
                (Sample.options "pop,label,missing" "sum" EmptyString) eq_refl)
      as (_ & H & _).
    exact (H ["pop"] "label" ["missing"]
             {| name := "label"; sqlType := "TEXT" |}
             eq_refl Hpop eq_refl eq_refl).
  - destruct (resolve_requested env
                (Sample.options "income,pop" "sum" EmptyString) eq_refl)
      as (_ & _ & H).
    apply H. repeat constructor.
Defined.

(** ** Dispatch: failure, progress and completion *)

(** C7. If the delegated call with index [k] fails, the run ends there
    with the delegate's failure: the calls of jobs 0..k are the ones in
    the log, each for its own job, the failed call is the last event, and
    no call of a later job is issued. *)
Theorem fail_fast env options cols k kw :
  (resolve env options []).2 = Ok cols →
  calls_of (main env options []).1 !! k = Some kw →
  v_vect_stats env (take k (calls_of (main env options []).1)) kw = false →
  k < length cols * length (methods options) ∧
  (main env options []).2 = Abort DelegatedOperationError ∧
  length (calls_of (main env options []).1) = S k ∧
  last (main env options []).1 = Some (ECall "v.vect.stats" kw) ∧
  (∀ j, j ≤ k →
     ∃ c m kwj, product cols (methods options) !! j = Some (c, m) ∧
                calls_of (main env options []).1 !! j = Some kwj ∧
                kw_points_column kwj = c ∧ kw_method kwj = m).
Proof.
  intros Hres. rewrite (main_run _ _ _ Hres). intros Hk Hbad.
  destruct (run_with_call _ _ _ _ _ Hk)
    as (names & evs & r & _ & Hrel & Hrun).
  destruct (run_entered _ _ _ _ _ Hrun) as [Hcalls _].
  rewrite Hcalls in Hk, Hbad |- *.
  destruct (dispatches_fail_fast _ _ _ _ _ _ _ _ _ Hrel k kw Hk Hbad)
    as (Hlen & -> & Hlast).
  rewrite Hrun. simpl.
  assert (∀ j, j ≤ k →
     ∃ c m kwj, product cols (methods options) !! j = Some (c, m) ∧
                calls_of evs !! j = Some kwj ∧
                kw_points_column kwj = c ∧ kw_method kwj = m) as Hjobs.
  { intros j Hj.
    destruct (lookup_lt_is_Some_2 (calls_of evs) j) as [kwj Hkwj]; [lia|].
    destruct (dispatches_sound _ _ _ _ _ _ _ _ _ Hrel j kwj Hkwj)
      as (c & m & Hjob & _ & Hkw).
    exists c, m, kwj.
    split_and!; [done | done | by rewrite Hkw | by rewrite Hkw]. }
  split_and!; [| done | done | done | done].
  destruct (Hjobs k) as (c & m & kwk & Hjob & _); [lia|].
  rewrite <- product_length. by eapply lookup_lt_Some.
Qed.

(** A delegate that fails on its third call: three calls are issued. *)
Lemma fail_fast_witness :
  let env := Sample.env (Sample.fails_at 2) in
  let options := Sample.options "pop,income" "sum,average" EmptyString in
  let kw := job_kwargs options "income" "sum" "income_sum" in
  (resolve env options []).2 = Ok ["pop"; "income"] ∧
  calls_of (main env options []).1 !! 2 = Some kw ∧
  v_vect_stats env (take 2 (calls_of (main env options []).1)) kw = false ∧
  (main env options []).2 = Abort DelegatedOperationError ∧
  length (calls_of (main env options []).1) = 3.
Proof.
  intros env options kw.
  assert (calls_of (main env options []).1 !! 2 = Some kw) as Hk
    by (vm_compute; reflexivity).
  assert (v_vect_stats env (take 2 (calls_of (main env options []).1)) kw
          = false) as Hbad by (vm_compute; reflexivity).
  split; [reflexivity|]. split; [exact Hk|]. split; [exact Hbad|].
  destruct (fail_fast env options ["pop"; "income"] 2 kw eq_refl Hk Hbad)
    as (_ & Hr & Hlen & _).
  split; [exact Hr | exact Hlen].
Defined.

(** C8, as stated, fails: after job 0 of two succeeds the signal is
    [percent(0, 2, 1)], and when job 1 then fails no signal of the run
    shows one job of two done. *)
Lemma progress_counterexample :
  let env := Sample.env (Sample.fails_at 1) in
  let options := Sample.options "pop" "sum,average" EmptyString in
  let kw0 := job_kwargs options "pop" "sum" "pop_sum" in
  let kw1 := job_kwargs options "pop" "average" "pop_average" in
  (main env options []).1 =
    [ECall "v.vect.stats" kw0; EPercent 0 2 1; ECall "v.vect.stats" kw1] ∧
  v_vect_stats env [] kw0 = true ∧
  ∀ e, e ∈ (main env options []).1 → ¬ proportional e (0 + 1) 2.
Proof.
  intros env options kw0 kw1.
  assert ((main env options []).1 =
    [ECall "v.vect.stats" kw0; EPercent 0 2 1; ECall "v.vect.stats" kw1])
    as Hlog by (vm_compute; reflexivity).
  split_and!; [exact Hlog | reflexivity |].
  intros e He. rewrite Hlog in He.
  repeat (apply elem_of_cons in He as [-> | He]; [simpl; lia|]).
  by apply elem_of_nil in He.
Qed.

(** C8, amended. After the delegated call of job [i] succeeds, the
    dispatcher emits the signal [percent(i, N, 1)], which shows [i] of
    [N] jobs and not [i + 1] of them: the call is event [2 i] of the log
    and the signal is event [2 i + 1].  A signal that shows all of the
    work done is emitted only as the final signal [percent(1, 1, 1)], the
    last event of a run that returns. *)
Theorem progress_after_job env options cols i kw :
  (resolve env options []).2 = Ok cols →
  calls_of (main env options []).1 !! i = Some kw →
  v_vect_stats env (take i (calls_of (main env options []).1)) kw = true →
  (main env options []).1 !! (2 * i) = Some (ECall "v.vect.stats" kw) ∧
  (main env options []).1 !! (2 * i + 1)
    = Some (EPercent i (length cols * length (methods options)) 1) ∧
  proportional (EPercent i (length cols * length (methods options)) 1)
    i (length cols * length (methods options)) ∧
  i < length cols * length (methods options) ∧
  ¬ proportional (EPercent i (length cols * length (methods options)) 1)
      (i + 1) (length cols * length (methods options)) ∧
  (∀ p e, (main env options []).1 !! p = Some e →
          proportional e 1 1 →
          e = EPercent 1 1 1 ∧ S p = length (main env options []).1 ∧
          (main env options []).2 = Ok 0%Z).
Proof.
  intros Hres. rewrite (main_run _ _ _ Hres). intros Hi Hgood.
  destruct (run_with_call _ _ _ _ _ Hi)
    as (names & evs & r & _ & Hrel & Hrun).
  destruct (run_entered _ _ _ _ _ Hrun) as [Hcalls Hevs].
  rewrite Hcalls in Hi, Hgood.
  destruct (dispatches_progress _ _ _ _ _ _ _ _ _ Hrel i kw Hi)
    as [Hcall Hpercent].
  assert (i < length cols * length (methods options)) as Hlt.
  { destruct (dispatches_sound _ _ _ _ _ _ _ _ _ Hrel i kw Hi)
      as (c & m & Hjob & _).
    rewrite <- product_length. by eapply lookup_lt_Some. }
  split_and!; [by apply Hevs | | done | done | |].
  - apply Hevs. by apply Hpercent.
  - simpl. rewrite Nat.mul_add_distr_r. lia.
  - intros p e. apply run_full_signal.
Qed.

(** The signal after the last of four jobs shows three of four. *)
Lemma progress_after_job_witness :
  let env := Sample.env Sample.always_ok in
  let options := Sample.options "pop,income" "sum,average" EmptyString in
  let kw := job_kwargs options "income" "average" "income_average" in
  (resolve env options []).2 = Ok ["pop"; "income"] ∧
  calls_of (main env options []).1 !! 3 = Some kw ∧
  v_vect_stats env (take 3 (calls_of (main env options []).1)) kw = true ∧
  (main env options []).1 !! 7 = Some (EPercent 3 4 1) ∧
  ¬ proportional (EPercent 3 4 1) (3 + 1) 4.
Proof.
  intros env options kw.
  assert (calls_of (main env options []).1 !! 3 = Some kw) as Hi
    by (vm_compute; reflexivity).
  split; [reflexivity|]. split; [exact Hi|]. split; [reflexivity|].
  destruct (progress_after_job env options ["pop"; "income"] 3 kw
              eq_refl Hi eq_refl) as (_ & H & _ & _ & Hnot & _).
  split; [exact H | exact Hnot].
Defined.

(** C9. A run that passes the checks on the names and whose delegated
    calls all succeed issues every job, then emits the final signal
    [percent(1, 1, 1)] and returns 0; with no job at all the final signal
    is the whole log. *)
Theorem final_signal env options cols :
  (resolve env options []).2 = Ok cols →
  (∃ names, (check_names options cols []).2 = Ok names) →
  all_calls_succeed env (main env options []).1 →
  (main env options []).2 = Ok 0%Z ∧
  last (main env options []).1 = Some (EPercent 1 1 1) ∧
  length (calls_of (main env options []).1)
    = length cols * length (methods options) ∧
  (length cols * length (methods options) = 0 →
   (main env options []).1 = [EPercent 1 1 1]).
Proof.
  intros Hres [names0 Hpass]. rewrite (main_run _ _ _ Hres). intros Hgood.
  destruct (run_cases env options cols)
    as [(e & Hcheck & _) | (names & evs & r & Hcheck & Hrel & Hrun)].
  { rewrite Hcheck in Hpass. done. }
  destruct (run_entered _ _ _ _ _ Hrun) as [Hcalls _].
  unfold all_calls_succeed in Hgood. rewrite Hcalls in Hgood.
  destruct (check_names_ok _ _ _ _ _ Hcheck) as (_ & _ & Hnames).
  destruct (dispatches_complete _ _ _ _ _ _ _ _ _ Hrel) as [-> Hlen].
  { intros Ht. rewrite (Hnames Ht), product_length. simpl. lia. }
  { exact Hgood. }
  rewrite product_length in Hlen. rewrite Hcalls, Hrun. simpl.
  split_and!; [done | apply last_snoc | done |].
  intros Hzero.
  assert (product cols (methods options) = []) as Hjobs.
  { apply length_zero_iff_nil. by rewrite product_length. }
  rewrite Hjobs in Hrel. by inversion Hrel.
Qed.

(** A run with supplied names that completes. *)
Lemma final_signal_witness :
  let env := Sample.env Sample.always_ok in
  let options := Sample.options "pop" "sum,average" "low,high" in
  (resolve env options []).2 = Ok ["pop"] ∧
  (∃ names, (check_names options ["pop"] []).2 = Ok names) ∧
  all_calls_succeed env (main env options []).1 ∧
  (main env options []).2 = Ok 0%Z ∧
  last (main env options []).1 = Some (EPercent 1 1 1).
Proof.
  intros env options.
  assert (∃ names, (check_names options ["pop"] []).2 = Ok names) as Hpass
    by (exists ["low"; "high"]; reflexivity).
  assert (all_calls_succeed env (main env options []).1) as Hgood
    by (intros j kw _; reflexivity).
  split; [reflexivity|]. split; [exact Hpass|]. split; [exact Hgood|].
  destruct (final_signal env options ["pop"] eq_refl Hpass Hgood)
    as (Hr & Hlast & _).
  split; [exact Hr | exact Hlast].
Defined.

(** C10. With no column requested, no numeric column in the table and no
    stats_columns list, the resolved list is empty, there is no job, no
    delegated call is issued, the final signal is emitted and the program
    returns 0. *)
Theorem no_numeric_columns env options :
  let d := vector_columns env (points options) (points_layer options) in
  let all_column_names :=
    vector_columns_names env (points options) (points_layer options) in
  points_columns options = EmptyString →
  stats_columns options = EmptyString →
  (∀ n, n ∈ all_column_names →
        ∃ ci, d !! n = Some ci ∧ sql_type_is_numeric (sqlType ci) = false) →
  resolve env options [] = ([], Ok []) ∧
  length (@nil string) * length (methods options) = 0 ∧
  main env options [] = ([EPercent 1 1 1], Ok 0%Z) ∧
  calls_of (main env options []).1 = [].
Proof.
  intros d all_column_names Hcols Hnames Htext.
  assert (resolve env options [] = ([], Ok [])) as Hres.
  { rewrite resolve_absent; [| done |].
    - fold d all_column_names. do 2 f_equal.
      apply filter_none. intros n Hn.
      destruct (Htext n Hn) as (ci & Hci & Hty).
      unfold numeric_in. rewrite Hci, Hty. done.
    - intros n Hn. destruct (Htext n Hn) as (ci & Hci & _). by eexists. }
  assert (main env options [] = ([EPercent 1 1 1], Ok 0%Z)) as Hmain.
  { rewrite (main_run env options []) by (by rewrite Hres).
    unfold run. rewrite (bind_ok _ _ _ _ _ (check_names_absent _ _ _ Hnames)).
    reflexivity. }
  split_and!; [done | done | done |]. by rewrite Hmain.
Qed.

(** A table with one text column: no work, final signal, status 0. *)
Lemma no_numeric_columns_witness :
  let options := Sample.options EmptyString "sum,average" EmptyString in
  points_columns options = EmptyString ∧ stats_columns options = EmptyString ∧
  main Sample.text_env options [] = ([EPercent 1 1 1], Ok 0%Z).
Proof.
  intros options.
  split; [reflexivity|]. split; [reflexivity|].
  destruct (no_numeric_columns Sample.text_env options eq_refl eq_refl)
    as (_ & _ & H & _); [|exact H].
  intros n Hn. simpl in Hn.
  apply elem_of_cons in Hn as [-> | Hn]; [|by apply elem_of_nil in Hn].
  by eexists.
Defined.

(** ** More on strings and on the classifier *)

Lemma same_letter_upper a b :
  same_letter a b → PyStr.upper_ascii a = PyStr.upper_ascii b.
Proof.
  assert (∀ x y, 65 ≤ nat_of_ascii x ≤ 90 →
                 nat_of_ascii y = nat_of_ascii x + 32 →
                 PyStr.upper_ascii x = PyStr.upper_ascii y) as Hcase.
  { intros x y Hx Hy. unfold PyStr.upper_ascii. rewrite Hy.
    replace (97 <=? nat_of_ascii x) with false
      by (symmetry; apply Nat.leb_gt; lia).
    replace (97 <=? nat_of_ascii x + 32) with true
      by (symmetry; apply Nat.leb_le; lia).
    replace (nat_of_ascii x + 32 <=? 122) with true
      by (symmetry; apply Nat.leb_le; lia).
    simpl. replace (nat_of_ascii x + 32 - 32) with (nat_of_ascii x) by lia.
    by rewrite ascii_nat_embedding. }
  intros [-> | [[Ha Hb] | [Hb Ha]]]; [done | by apply Hcase |].
  symmetry. by apply Hcase.
Qed.

Lemma same_ignoring_case_upper s t :
  same_ignoring_case s t → PyStr.upper s = PyStr.upper t.
Proof.
  unfold same_ignoring_case. revert t.
  induction s as [|a s IH]; intros [|b t] Hst; simpl in *;
    [done | by inversion Hst | by inversion Hst |].
  apply Forall2_cons in Hst as [Hab Hst].
  by rewrite (same_letter_upper a b Hab), (IH t Hst).
Qed.

Lemma numeric_types_upper t :
  t ∈ _SQL_NUMERIC_TYPES → PyStr.upper t = t.
Proof.
  intros Ht. unfold _SQL_NUMERIC_TYPES, _SQL_INT_TYPES, _SQL_FLOAT_TYPES in Ht.
  simpl in Ht.
  repeat (apply elem_of_cons in Ht as [-> | Ht]; [reflexivity|]).
  by apply elem_of_nil in Ht.
Qed.

(** X1. On ASCII type names the classifier ignores the case of letters:
    two names that differ at most in the case of their letters are
    classified alike, so every spelling of a listed name is numeric. *)
Theorem classifier_ignores_case s t :
  is_ascii s →
  same_ignoring_case s t →
  sql_type_is_numeric s = sql_type_is_numeric t ∧
  (t ∈ _SQL_NUMERIC_TYPES → sql_type_is_numeric s = true).
Proof.
  intros _ Hst. apply same_ignoring_case_upper in Hst.
  unfold sql_type_is_numeric. rewrite Hst. split; [done|].
  intros Ht. rewrite (numeric_types_upper t Ht).
  by apply bool_decide_eq_true.
Qed.

(** Two spellings of a listed two-word name and two of a text type. *)
Lemma classifier_ignores_case_witness :
  (is_ascii "Double Precision" ∧
   same_ignoring_case "Double Precision" "DOUBLE PRECISION" ∧
   "DOUBLE PRECISION" ∈ _SQL_NUMERIC_TYPES ∧
   sql_type_is_numeric "Double Precision" = true) ∧
  (is_ascii "integer" ∧ same_ignoring_case "integer" "INTEGER" ∧
   sql_type_is_numeric "integer" = sql_type_is_numeric "INTEGER").
Proof.
  assert (is_ascii "Double Precision") as Ha1
    by (apply (bool_decide_unpack _); vm_compute; exact I).
  assert (same_ignoring_case "Double Precision" "DOUBLE PRECISION") as Hs1
    by (apply (bool_decide_unpack _); vm_compute; exact I).
  assert ("DOUBLE PRECISION" ∈ _SQL_NUMERIC_TYPES) as Ht
    by (apply (bool_decide_unpack _); vm_compute; exact I).
  assert (is_ascii "integer") as Ha2
    by (apply (bool_decide_unpack _); vm_compute; exact I).
  assert (same_ignoring_case "integer" "INTEGER") as Hs2
    by (apply (bool_decide_unpack _); vm_compute; exact I).
  split.
  - split; [exact Ha1|]. split; [exact Hs1|]. split; [exact Ht|].
    exact (proj2 (classifier_ignores_case _ _ Ha1 Hs1) Ht).
  - split; [exact Ha2|]. split; [exact Hs2|].
    exact (proj1 (classifier_ignores_case _ _ Ha2 Hs2)).
Defined.

Lemma split_cons_eq sep c s :
  PyStr.split sep (String c s) =
    if Ascii.eqb c sep then EmptyString :: PyStr.split sep s
    else match PyStr.split sep s with
         | [] => [String c EmptyString]
         | piece :: pieces => String c piece :: pieces
         end.
Proof. reflexivity. Qed.

(** X2. Splitting an option value loses nothing: the pieces, joined with
    the separator, give the value back; no piece holds the separator; and
    there is always at least one piece. *)
Theorem split_round_trip sep s :
  String.concat (String sep EmptyString) (PyStr.split sep s) = s ∧
  (∀ piece, piece ∈ PyStr.split sep s →
            sep ∉ list_ascii_of_string piece) ∧
  0 < length (PyStr.split sep s).
Proof.
  split_and!.
  - induction s as [|c s IH]; [done|].
    rewrite split_cons_eq.
    destruct (Ascii.eqb_spec c sep) as [->|Hne].
    + pose proof (split_truthy sep s) as Hne.
      destruct (PyStr.split sep s) as [|p ps] eqn:Hsplit; [done|].
      change (String.concat (String sep EmptyString)
                (EmptyString :: p :: ps))
        with (String sep (String.concat (String sep EmptyString) (p :: ps))).
      by rewrite IH.
    + pose proof (split_truthy sep s) as Htr.
      destruct (PyStr.split sep s) as [|p ps] eqn:Hsplit; [done|].
      rewrite <- IH. by destruct ps.
  - induction s as [|c s IH]; intros piece Hin.
    + apply list_elem_of_singleton in Hin as ->. simpl. apply not_elem_of_nil.
    + rewrite split_cons_eq in Hin.
      destruct (Ascii.eqb_spec c sep) as [->|Hne].
      * apply elem_of_cons in Hin as [-> | Hin];
          [simpl; apply not_elem_of_nil | by apply IH].
      * destruct (PyStr.split sep s) as [|p ps] eqn:Hsplit.
        -- apply list_elem_of_singleton in Hin as ->. simpl.
           intros [?|Hin]%elem_of_cons; [done | by apply elem_of_nil in Hin].
        -- apply elem_of_cons in Hin as [-> | Hin].
           ++ simpl. intros [?|Hin]%elem_of_cons; [done|].
              by apply (IH p); [left|].
           ++ apply IH. by right.
  - pose proof (split_truthy sep s) as H.
    destruct (PyStr.split sep s); simpl in *; [done | lia].
Qed.

(** A doubled comma gives an empty piece, and no piece holds a comma. *)
Lemma split_round_trip_witness :
  EmptyString ∈ PyStr.split "," "sum,,average" ∧
  (","%char ∉ list_ascii_of_string EmptyString) ∧
  String.concat "," (PyStr.split "," "sum,,average") = "sum,,average".
Proof.
  assert (EmptyString ∈ PyStr.split "," "sum,,average") as Hin
    by (apply (bool_decide_unpack _); vm_compute; exact I).
  destruct (split_round_trip "," "sum,,average") as (Hjoin & Hpieces & _).
  split; [exact Hin|]. split; [exact (Hpieces EmptyString Hin) | exact Hjoin].
Defined.

(** ** More on the column resolver *)

Lemma collect_numeric_inv d names acc log log' cols :
  collect_numeric d names acc log = (log', Ok cols) →
  cols = acc ++ filter (λ n, numeric_in d n = true) names.
Proof.
  revert acc. induction names as [|n names IH]; intros acc; simpl.
  - unfold ret. intros; simplify_eq. by rewrite app_nil_r.
  - unfold bind, lift, getitem.
    assert (numeric_in d n =
      match d !! n with
      | Some ci => sql_type_is_numeric (sqlType ci) | None => false
      end) as Hnum by done.
    rewrite filter_cons. destruct (d !! n) as [ci|]; [|done].
    destruct (sql_type_is_numeric (sqlType ci)); intros Hrun.
    + rewrite decide_True by done. rewrite (IH _ Hrun).
      by rewrite <- app_assoc.
    + rewrite decide_False by congruence. by apply IH.
Qed.

(** The loop over the table's names stops at the first name the mapping
    lacks. *)
Lemma collect_numeric_stale d pre bad post acc log :
  (∀ n, n ∈ pre → is_Some (d !! n)) →
  d !! bad = None →
  collect_numeric d (pre ++ bad :: post) acc log = (log, Abort (KeyError bad)).
Proof.
  revert acc. induction pre as [|n pre IH]; intros acc Hpre Hbad; simpl.
  - unfold bind, lift, getitem. by rewrite Hbad.
  - destruct (Hpre n) as [ci Hci]; [set_solver|].
    unfold bind, lift, getitem. rewrite Hci.
    destruct (sql_type_is_numeric (sqlType ci)); apply IH; set_solver.
Qed.

Lemma collect_numeric_abort d names acc log log' e :
  collect_numeric d names acc log = (log', Abort e) →
  ∃ key, e = KeyError key ∧ key ∈ names ∧ d !! key = None.
Proof.
  revert acc. induction names as [|n names IH]; intros acc; simpl; [done|].
  unfold bind, lift, getitem. destruct (d !! n) as [ci|] eqn:Hn.
  - destruct (sql_type_is_numeric (sqlType ci)); intros Hrun;
      destruct (IH _ Hrun) as (key & -> & Hin & Hkey);
      exists key; split_and!; [done | by right | done | done | by right | done].
  - intros; simplify_eq. exists n. split_and!; [done | by left | done].
Qed.

Lemma check_columns_inv d pn pl names log log' :
  check_columns d pn pl names log = (log', Ok tt) →
  Forall (λ n, numeric_in d n = true) names.
Proof.
  induction names as [|n names IH]; simpl; [by constructor|].
  unfold getitem, fatal, lift.
  destruct (d !! n) as [ci|] eqn:Hn; [|done].
  destruct (sql_type_is_numeric (sqlType ci)) eqn:Hty; simpl; [|done].
  intros Hrun. constructor; [|by apply IH].
  unfold numeric_in. by rewrite Hn.
Qed.

Lemma check_columns_abort d pn pl names log log' e :
  check_columns d pn pl names log = (log', Abort e) →
  ∃ n, n ∈ names ∧
    ((d !! n = None ∧ e = ColumnNotFoundError n pn pl) ∨
     (∃ ci, d !! n = Some ci ∧ sql_type_is_numeric (sqlType ci) = false ∧
            e = NonNumericColumnError n pn (sqlType ci))).
Proof.
  induction names as [|n names IH]; simpl; [done|].
  unfold getitem, fatal, lift.
  destruct (d !! n) as [ci|] eqn:Hn.
  - destruct (sql_type_is_numeric (sqlType ci)) eqn:Hty; simpl.
    + intros Hrun. destruct (IH Hrun) as (n' & Hin & Hcase).
      exists n'. split; [by right | done].
    + intros; simplify_eq. exists n. split; [by left|]. right. by exists ci.
  - intros; simplify_eq. exists n. split; [by left|]. by left.
Qed.

Lemma resolve_cases env options :
  resolve env options [] =
    if PyStr.truthy_list (requested_columns options)
    then bind (check_columns
                 (vector_columns env (points options) (points_layer options))
                 (points options) (points_layer options)
                 (requested_columns options))
              (λ _, ret (requested_columns options)) []
    else collect_numeric
           (vector_columns env (points options) (points_layer options))
           (vector_columns_names env (points options) (points_layer options))
           (requested_columns options) [].
Proof. unfold resolve. by destruct (PyStr.truthy_list _). Qed.

Lemma requested_columns_truthy options :
  PyStr.truthy_list (requested_columns options)
  = PyStr.truthy (points_columns options).
Proof.
  unfold requested_columns.
  destruct (PyStr.truthy (points_columns options)); [apply split_truthy | done].
Qed.

Lemma truthy_false s : PyStr.truthy s = false → s = EmptyString.
Proof. by destruct s. Qed.

(** What a failed resolver run says about the request and the table. *)
Lemma resolve_abort env options e :
  (resolve env options []).2 = Abort e →
  match e with
  | ColumnNotFoundError n pn pl =>
      n ∈ requested_columns options ∧
      vector_columns env (points options) (points_layer options) !! n = None ∧
      pn = points options ∧ pl = points_layer options
  | NonNumericColumnError n pn ty =>
      n ∈ requested_columns options ∧
      (∃ ci, vector_columns env (points options) (points_layer options) !! n
               = Some ci ∧ sqlType ci = ty) ∧
      sql_type_is_numeric ty = false ∧ pn = points options
  | KeyError key =>
      points_columns options = EmptyString ∧
      key ∈ vector_columns_names env (points options) (points_layer options) ∧
      vector_columns env (points options) (points_layer options) !! key = None
  | _ => False
  end.
Proof.
  rewrite resolve_cases, requested_columns_truthy.
  destruct (PyStr.truthy (points_columns options)) eqn:Hgiven.
  - unfold bind.
    destruct (check_columns _ _ _ _ []) as [log' [[]|e']] eqn:Hrun;
      simpl; [done|].
    intros; simplify_eq.
    destruct (check_columns_abort _ _ _ _ _ _ _ Hrun)
      as (n & Hin & [[Hn ->] | (ci & Hn & Hty & ->)]).
    + done.
    + split_and!; [done | by exists ci | done | done].
  - destruct (collect_numeric _ _ _ []) as [log' [cols|e']] eqn:Hrun;
      simpl; [done|].
    intros; simplify_eq.
    destruct (collect_numeric_abort _ _ _ _ _ _ Hrun) as (key & -> & Hin & Hk).
    split_and!; [by apply truthy_false | done | done].
Qed.

(** X3. Whatever the mode, the columns the resolver returns are columns
    of the mapping with a numeric type; with a request they are the
    requested columns, without one they are the numeric ones of the
    table's name list. *)
Theorem resolved_columns_numeric env options cols :
  let d := vector_columns env (points options) (points_layer options) in
  (resolve env options []).2 = Ok cols →
  Forall (λ n, numeric_in d n = true) cols ∧
  (PyStr.truthy (points_columns options) = true →
   cols = PyStr.split "," (points_columns options)) ∧
  (points_columns options = EmptyString →
   cols = filter (λ n, numeric_in d n = true)
            (vector_columns_names env (points options)
               (points_layer options))).
Proof.
  intros d. rewrite resolve_cases, requested_columns_truthy.
  destruct (PyStr.truthy (points_columns options)) eqn:Hgiven.
  - destruct (requested_columns_given _ Hgiven) as [Hreq _].
    unfold bind.
    destruct (check_columns _ _ _ _ []) as [log' [[]|e']] eqn:Hrun;
      simpl; [|done].
    unfold ret. intros; simplify_eq.
    split_and!; [by eapply check_columns_inv | by rewrite Hreq |].
    intros Hnone. by rewrite Hnone in Hgiven.
  - rewrite (requested_columns_absent _ (truthy_false _ Hgiven)).
    destruct (collect_numeric _ _ _ []) as [log' [cols'|e']] eqn:Hrun;
      simpl; [|done].
    intros; simplify_eq.
    apply collect_numeric_inv in Hrun. simpl in Hrun. subst cols.
    split_and!; [| done | done].
    apply Forall_forall. intros n Hn. by apply list_elem_of_filter in Hn as [? _].
Qed.

(** A request in the user's order on the sample table. *)
Lemma resolved_columns_numeric_witness :
  let env := Sample.env Sample.always_ok in
  let options := Sample.options "income,cat" "sum" EmptyString in
  (resolve env options []).2 = Ok ["income"; "cat"] ∧
  Forall (λ n, numeric_in Sample.columns_dict n = true) ["income"; "cat"].
Proof.
  intros env options. split; [reflexivity|].
  exact (proj1 (resolved_columns_numeric env options ["income"; "cat"]
                  eq_refl)).
Defined.

(** X4. The resolver's errors are truthful: a column-not-found error
    names a requested column that the mapping lacks, with the map and the
    layer of the run; a non-numeric error names a requested column of the
    mapping and its type, which is not numeric; a [KeyError] arises only
    without a request, for a listed name the mapping lacks; and the
    resolver fails in no other way. *)
Theorem resolver_errors_truthful env options e :
  let d := vector_columns env (points options) (points_layer options) in
  (resolve env options []).2 = Abort e →
  match e with
  | ColumnNotFoundError n pn pl =>
      n ∈ requested_columns options ∧ d !! n = None ∧
      pn = points options ∧ pl = points_layer options
  | NonNumericColumnError n pn ty =>
      n ∈ requested_columns options ∧
      (∃ ci, d !! n = Some ci ∧ sqlType ci = ty) ∧
      sql_type_is_numeric ty = false ∧ pn = points options
  | KeyError key =>
      points_columns options = EmptyString ∧
      key ∈ vector_columns_names env (points options) (points_layer options) ∧
      d !! key = None
  | _ => False
  end.
Proof. intros d. apply resolve_abort. Qed.

(** A request for a text column of the sample table. *)
Lemma resolver_errors_truthful_witness :
  let env := Sample.env Sample.always_ok in
  let options := Sample.options "pop,label" "sum" EmptyString in
  (resolve env options []).2
    = Abort (NonNumericColumnError "label" "schools" "TEXT") ∧
  "label" ∈ requested_columns options ∧
  sql_type_is_numeric "TEXT" = false.
Proof.
  intros env options. split; [reflexivity|].
  destruct (resolver_errors_truthful env options
              (NonNumericColumnError "label" "schools" "TEXT") eq_refl)
    as (Hin & _ & Hty & _).
  split; [exact Hin | exact Hty].
Defined.

(** X5. When no column is requested and the ordered name list holds a
    name that the mapping lacks, the run ends with a [KeyError] for the
    first such name, and nothing is issued. *)
Theorem stale_metadata_key_error env options pre bad post :
  let d := vector_columns env (points options) (points_layer options) in
  points_columns options = EmptyString →
  vector_columns_names env (points options) (points_layer options)
    = pre ++ bad :: post →
  (∀ n, n ∈ pre → is_Some (d !! n)) →
  d !! bad = None →
  main env options [] = ([], Abort (KeyError bad)).
Proof.
  intros d Hnone Hnames Hpre Hbad. unfold main. eapply bind_abort.
  rewrite resolve_cases, (requested_columns_absent _ Hnone). simpl.
  rewrite Hnames. by apply collect_numeric_stale.
Qed.

(** The name list of the stale metadata holds a name out of the mapping. *)
Lemma stale_metadata_key_error_witness :
  let options := Sample.options EmptyString "sum" EmptyString in
  points_columns options = EmptyString ∧
  vector_columns_names stale_env "schools" "1" = ["cat"] ++ "ghost" :: ["pop"] ∧
  main stale_env options [] = ([], Abort (KeyError "ghost")).
Proof.
  intros options. split; [reflexivity|]. split; [reflexivity|].
  apply (stale_metadata_key_error stale_env options ["cat"] "ghost" ["pop"]);
    [reflexivity | reflexivity | | reflexivity].
  intros n Hn.
  apply elem_of_cons in Hn as [-> | Hn]; [by eexists|].
  by apply elem_of_nil in Hn.
Defined.

(** ** More on the checks on the names *)

Lemma size_list_to_set_le (l : list string) :
  size (list_to_set l : gset string) ≤ length l.
Proof.
  induction l as [|x l IH]; [done|].
  rewrite list_to_set_cons, size_union_alt, size_singleton. simpl.
  assert (size (list_to_set l ∖ {[x]} : gset string)
          ≤ size (list_to_set l : gset string))
    as Hsub by (by apply subseteq_size, subseteq_difference_l).
  lia.
Qed.

(** As many distinct names as names: no name is given twice. *)
Lemma size_list_to_set_NoDup (l : list string) :
  size (list_to_set l : gset string) = length l → NoDup l.
Proof.
  induction l as [|x l IH]; [constructor|].
  rewrite list_to_set_cons. simpl. intros Hsize.
  pose proof (size_list_to_set_le l) as Hle.
  destruct (decide (x ∈ l)) as [Hin|Hout].
  - exfalso.
    assert ({[x]} ∪ list_to_set l = (list_to_set l : gset string)) as Heq.
    { apply subseteq_union_1_L, singleton_subseteq_l.
      by apply elem_of_list_to_set. }
    rewrite Heq in Hsize. lia.
  - apply NoDup_cons. split; [done|]. apply IH.
    rewrite size_union, size_singleton in Hsize; [lia|].
    apply disjoint_singleton_l. by rewrite elem_of_list_to_set.
Qed.

Lemma stats_columns_names_given options :
  PyStr.truthy (stats_columns options) = true →
  stats_columns_names options = PyStr.split "," (stats_columns options) ∧
  PyStr.truthy_list (stats_columns_names options) = true.
Proof.
  intros H. unfold stats_columns_names. rewrite H.
  split; [done | apply split_truthy].
Qed.

(** What passing the checks says about names that were given. *)
Lemma check_names_passed options cols log log' names :
  check_names options cols log = (log', Ok names) →
  PyStr.truthy (stats_columns options) = true →
  names = stats_columns_names options ∧
  length names = length cols * length (methods options) ∧
  NoDup names.
Proof.
  intros Hcheck Hgiven.
  destruct (stats_columns_names_given _ Hgiven) as [Hnames _].
  revert Hcheck. unfold check_names. rewrite Hgiven, <- Hnames.
  unfold bind, fatal, lift, ret.
  repeat case_bool_decide; intros; simplify_eq.
  split_and!; [done | lia |]. apply size_list_to_set_NoDup. lia.
Qed.

(** What a failed check says about the names. *)
Lemma check_names_abort options cols log log' e :
  check_names options cols log = (log', Abort e) →
  PyStr.truthy (stats_columns options) = true ∧
  ((length (stats_columns_names options)
      ≠ length cols * length (methods options) ∧
    e = NameCountMismatchError (length (stats_columns_names options))
          (length cols) (length (methods options))
          (length cols * length (methods options))) ∨
   (length (stats_columns_names options)
      = length cols * length (methods options) ∧
    size (list_to_set (stats_columns_names options) : gset string)
      < length (stats_columns_names options) ∧
    e = DuplicateNameError (length (stats_columns_names options))
          (size (list_to_set (stats_columns_names options) : gset string)))).
Proof.
  unfold check_names.
  destruct (PyStr.truthy (stats_columns options)) eqn:Hgiven; [|done].
  destruct (stats_columns_names_given _ Hgiven) as [Hnames _].
  rewrite <- Hnames. unfold bind, fatal, lift, ret.
  pose proof (size_list_to_set_le (stats_columns_names options)) as Hle.
  repeat case_bool_decide; intros; simplify_eq; split; try done.
  - by left.
  - right. split_and!; [lia | lia | done].
Qed.

(** ** More on the dispatch loop *)

Section DispatchOutcomes.
Context (env : Env) (options : Options) (names : list string) (n : nat).

Lemma stats_column_name_abort i c m e :
  stats_column_name names i c m = Abort e →
  e = IndexError i ∧ PyStr.truthy_list names = true ∧ length names ≤ i.
Proof.
  unfold stats_column_name, getitem_list.
  destruct (PyStr.truthy_list names); [|done].
  destruct (names !! i) eqn:Hi; [done|].
  intros; simplify_eq. by apply lookup_ge_None in Hi.
Qed.

(** With a name for every job the loop ends normally or with the
    delegate's failure. *)
Lemma dispatches_outcome i jobs log evs r :
  dispatches env options names n i jobs log evs r →
  (PyStr.truthy_list names = true → i + length jobs ≤ length names) →
  r = Ok tt ∨ r = Abort DelegatedOperationError.
Proof.
  induction 1 as [ | i c m rest log e Hname
                   | i c m rest log nm Hname Hfail
                   | i c m rest log nm evs r Hname Hok _ IH ];
    intros Hnames; [by left | | by right |].
  - exfalso. destruct (stats_column_name_abort _ _ _ _ Hname) as (_ & Ht & Hi).
    specialize (Hnames Ht). simpl in Hnames. lia.
  - apply IH. intros Ht. specialize (Hnames Ht). simpl in Hnames. lia.
Qed.

(** A loop that ends normally ran every job: a call and a signal for
    each, the signals counting up from [i]. *)
Lemma dispatches_ok_shape i jobs log evs :
  dispatches env options names n i jobs log evs (Ok tt) →
  length (calls_of evs) = length jobs ∧
  length evs = 2 * length jobs ∧
  signals_of evs = (λ j, (j, n, 1)) <$> seq i (length jobs).
Proof.
  intros Hrel. remember (Ok tt) as r eqn:Hr.
  induction Hrel as [ | | | i c m rest log nm evs r Hname Hok _ IH ];
    [done | done | done |].
  destruct (IH Hr) as (Hcalls & Hlen & Hsig).
  split_and!; simpl.
  - by rewrite Hcalls.
  - rewrite Hlen. lia.
  - change (signals_of (ECall "v.vect.stats" (job_kwargs options c m nm)
                          :: EPercent i n 1 :: evs))
      with ((i, n, 1) :: signals_of evs).
    by rewrite Hsig.
Qed.

(** A loop that ends with the delegate's failure: the failed call is the
    last event, and before it come a call and a signal for every earlier
    job. *)
Lemma dispatches_failed_shape i jobs log evs :
  dispatches env options names n i jobs log evs
    (Abort DelegatedOperationError) →
  ∃ kws kw,
    calls_of evs = kws ++ [kw] ∧
    v_vect_stats env (calls_of log ++ kws) kw = false ∧
    last evs = Some (ECall "v.vect.stats" kw) ∧
    length evs = 2 * length kws + 1 ∧
    signals_of evs = (λ j, (j, n, 1)) <$> seq i (length kws).
Proof.
  intros Hrel. remember (Abort DelegatedOperationError) as r eqn:Hr.
  induction Hrel as [ | i c m rest log e Hname
                      | i c m rest log nm Hname Hfail
                      | i c m rest log nm evs r Hname Hok _ IH ];
    [done | | |].
  - destruct (stats_column_name_abort _ _ _ _ Hname) as (-> & _). done.
  - exists [], (job_kwargs options c m nm).
    rewrite app_nil_r. by split_and!.
  - destruct (IH Hr) as (kws & kw & Hcalls & Hbad & Hlast & Hlen & Hsig).
    exists (job_kwargs options c m nm :: kws), kw. split_and!.
    + rewrite calls_of_step, Hcalls. done.
    + rewrite calls_of_log_step, <- app_assoc in Hbad. exact Hbad.
    + destruct evs; [done | exact Hlast].
    + simpl. rewrite Hlen. lia.
    + change (signals_of (ECall "v.vect.stats" (job_kwargs options c m nm)
                            :: EPercent i n 1 :: evs))
        with ((i, n, 1) :: signals_of evs).
      by rewrite Hsig.
Qed.

(** The name of call [j] is the supplied name at its index. *)
Lemma dispatches_names i jobs log evs r :
  dispatches env options names n i jobs log evs r →
  PyStr.truthy_list names = true →
  ∀ j kw, calls_of evs !! j = Some kw →
          names !! (i + j) = Some (kw_stats_column kw).
Proof.
  intros Hrel Ht j kw Hj.
  destruct (dispatches_sound _ _ _ _ _ _ _ _ _ Hrel j kw Hj)
    as (c & m & _ & Hname & _).
  unfold stats_column_name, getitem_list in Hname. rewrite Ht in Hname.
  destruct (names !! (i + j)); by simplify_eq.
Qed.
End DispatchOutcomes.

(** ** More on the whole run *)

Lemma main_cases env options :
  (∃ e, (resolve env options []).2 = Abort e ∧
        main env options [] = ([], Abort e)) ∨
  (∃ cols, (resolve env options []).2 = Ok cols ∧
           main env options [] = run env options cols []).
Proof.
  pose proof (resolve_log env options []) as Hlog.
  destruct (resolve env options []) as [log [cols|e]] eqn:Hres;
    simpl in Hlog; subst log.
  - right. exists cols. split; [done|]. unfold main. by apply bind_ok.
  - left. exists e. split; [done|]. unfold main. by eapply bind_abort.
Qed.

(** Every run of the part after the resolver, by outcome. *)
Lemma run_outcomes env options cols :
  (∃ e, check_names options cols [] = ([], Abort e) ∧
        run env options cols [] = ([], Abort e)) ∨
  (∃ names evs,
      check_names options cols [] = ([], Ok names) ∧
      dispatches env options names (length cols * length (methods options))
        0 (product cols (methods options)) [] evs (Ok tt) ∧
      run env options cols [] = (evs ++ [EPercent 1 1 1], Ok 0%Z)) ∨
  (∃ names evs,
      check_names options cols [] = ([], Ok names) ∧
      dispatches env options names (length cols * length (methods options))
        0 (product cols (methods options)) [] evs
        (Abort DelegatedOperationError) ∧
      run env options cols [] = (evs, Abort DelegatedOperationError)).
Proof.
  destruct (run_cases env options cols)
    as [(e & Hcheck & Hrun) | (names & evs & r & Hcheck & Hrel & Hrun)].
  - left. by exists e.
  - right.
    destruct (check_names_ok _ _ _ _ _ Hcheck) as (_ & _ & Hnames).
    destruct (dispatches_outcome _ _ _ _ _ _ _ _ _ Hrel) as [-> | ->].
    + intros Ht. rewrite (Hnames Ht), product_length. simpl. lia.
    + left. by exists names, evs.
    + right. by exists names, evs.
Qed.

(** Every run of [main], by outcome: the resolver fails, the checks on
    the names fail, every job runs, or a delegated call fails. *)
Lemma main_outcomes env options :
  (∃ e, (resolve env options []).2 = Abort e ∧
        main env options [] = ([], Abort e)) ∨
  (∃ cols e,
      (resolve env options []).2 = Ok cols ∧
      check_names options cols [] = ([], Abort e) ∧
      main env options [] = ([], Abort e)) ∨
  (∃ cols names evs,
      (resolve env options []).2 = Ok cols ∧
      check_names options cols [] = ([], Ok names) ∧
      dispatches env options names (length cols * length (methods options))
        0 (product cols (methods options)) [] evs (Ok tt) ∧
      main env options [] = (evs ++ [EPercent 1 1 1], Ok 0%Z)) ∨
  (∃ cols names evs,
      (resolve env options []).2 = Ok cols ∧
      check_names options cols [] = ([], Ok names) ∧
      dispatches env options names (length cols * length (methods options))
        0 (product cols (methods options)) [] evs
        (Abort DelegatedOperationError) ∧
      main env options [] = (evs, Abort DelegatedOperationError)).
Proof.
  destruct (main_cases env options) as [(e & Hres & Hmain) | (cols & Hres & ->)].
  - left. by exists e.
  - right.
    destruct (run_outcomes env options cols)
      as [(e & Hcheck & Hrun)
         | [(names & evs & Hcheck & Hrel & Hrun)
           | (names & evs & Hcheck & Hrel & Hrun)]].
    + left. by exists cols, e.
    + right. left. by exists cols, names, evs.
    + right. right. by exists cols, names, evs.
Qed.

(** ** The checks on the names: further properties *)

(** X6. The errors of the checks on the names are truthful: a
    count-mismatch error carries the number of names given, the numbers
    of columns and of methods, and their product, which differs from the
    number given; a duplicate-name error carries the number of names
    given, which is then the number needed, and the smaller number of
    distinct names. *)
Theorem name_errors_truthful env options e :
  (main env options []).2 = Abort e →
  match e with
  | NameCountMismatchError provided ncols nmethods needed =>
      PyStr.truthy (stats_columns options) = true ∧
      provided = length (stats_columns_names options) ∧
      (∃ cols, (resolve env options []).2 = Ok cols ∧ ncols = length cols) ∧
      nmethods = length (methods options) ∧
      needed = ncols * nmethods ∧ provided ≠ needed
  | DuplicateNameError provided unique =>
      PyStr.truthy (stats_columns options) = true ∧
      provided = length (stats_columns_names options) ∧
      (∃ cols, (resolve env options []).2 = Ok cols ∧
               provided = length cols * length (methods options)) ∧
      unique = size (list_to_set (stats_columns_names options) : gset string) ∧
      unique < provided
  | _ => True
  end.
Proof.
  destruct (main_outcomes env options)
    as [(e' & Hres & ->)
       | [(cols & e' & Hres & Hcheck & ->)
         | [(cols & names & evs & _ & _ & _ & ->)
           | (cols & names & evs & _ & _ & _ & ->)]]];
    simpl; intros; simplify_eq; [| | done].
  - pose proof (resolve_abort _ _ _ Hres) as Hform. by destruct e.
  - destruct (check_names_abort _ _ _ _ _ Hcheck)
      as [Hgiven [(Hne & ->) | (Heq & Hdup & ->)]].
    + split_and!; [done | done | by exists cols | done | done | done].
    + split_and!; [done | done | by exists cols | done | done].
Qed.

(** Three names for four jobs. *)
Lemma name_errors_truthful_witness :
  let env := Sample.env Sample.always_ok in
  let options := Sample.options "pop,income" "sum,average" "a,b,c" in
  (main env options []).2 = Abort (NameCountMismatchError 3 2 2 4) ∧
  3 = length (stats_columns_names options) ∧
  2 = length (methods options).
Proof.
  intros env options. split; [reflexivity|].
  destruct (name_errors_truthful env options
              (NameCountMismatchError 3 2 2 4) eq_refl)
    as (_ & Hprovided & _ & Hmethods & _).
  split; [exact Hprovided | exact Hmethods].
Defined.

(** X7. Supplied names go to the jobs by position: the delegated call
    with index [i] writes the [i]-th supplied name, and a run that
    returns has used every supplied name, in the order given. *)
Theorem supplied_names_by_position env options :
  PyStr.truthy (stats_columns options) = true →
  (∀ i kw, calls_of (main env options []).1 !! i = Some kw →
           stats_columns_names options !! i = Some (kw_stats_column kw)) ∧
  (∀ z, (main env options []).2 = Ok z →
        kw_stats_column <$> calls_of (main env options []).1
        = stats_columns_names options).
Proof.
  intros Hgiven.
  destruct (stats_columns_names_given _ Hgiven) as [_ Htruthy].
  assert (∀ cols names evs r,
    check_names options cols [] = ([], Ok names) →
    dispatches env options names (length cols * length (methods options))
      0 (product cols (methods options)) [] evs r →
    ∀ i kw, calls_of evs !! i = Some kw →
            stats_columns_names options !! i = Some (kw_stats_column kw))
    as Hpos.
  { intros cols names evs r Hcheck Hrel i kw Hi.
    destruct (check_names_passed _ _ _ _ _ Hcheck Hgiven) as (-> & _ & _).
    exact (dispatches_names _ _ _ _ _ _ _ _ _ Hrel Htruthy i kw Hi). }
  destruct (main_outcomes env options)
    as [(e' & Hres & ->)
       | [(cols & e' & Hres & Hcheck & ->)
         | [(cols & names & evs & Hres & Hcheck & Hrel & ->)
           | (cols & names & evs & Hres & Hcheck & Hrel & ->)]]];
    simpl; [done | done | | ].
  - rewrite calls_of_final. split; [by eapply Hpos|].
    intros z _.
    destruct (check_names_passed _ _ _ _ _ Hcheck Hgiven) as (Hn & Hlen & _).
    destruct (dispatches_ok_shape _ _ _ _ _ _ _ _ Hrel) as (Hcalls & _ & _).
    rewrite product_length, <- Hlen, Hn in Hcalls.
    apply list_eq. intros i. rewrite list_lookup_fmap.
    destruct (calls_of evs !! i) as [kw|] eqn:Hi; simpl.
    + symmetry. by eapply Hpos.
    + apply lookup_ge_None in Hi. rewrite Hcalls in Hi.
      symmetry. by apply lookup_ge_None.
  - split; [by eapply Hpos | done].
Qed.

(** Two names for the two jobs of one column. *)
Lemma supplied_names_by_position_witness :
  let env := Sample.env Sample.always_ok in
  let options := Sample.options "pop" "sum,average" "low,high" in
  PyStr.truthy (stats_columns options) = true ∧
  (main env options []).2 = Ok 0%Z ∧
  kw_stats_column <$> calls_of (main env options []).1 = ["low"; "high"].
Proof.
  intros env options. split; [reflexivity|]. split; [reflexivity|].
  exact (proj2 (supplied_names_by_position env options eq_refl) 0%Z eq_refl).
Defined.

(** X8. With supplied names, no two delegated calls of a run write the
    same column. *)
Theorem supplied_names_distinct env options :
  PyStr.truthy (stats_columns options) = true →
  NoDup (kw_stats_column <$> calls_of (main env options []).1).
Proof.
  intros Hgiven.
  destruct (stats_columns_names_given _ Hgiven) as [_ Htruthy].
  assert (∀ cols names evs r,
    check_names options cols [] = ([], Ok names) →
    dispatches env options names (length cols * length (methods options))
      0 (product cols (methods options)) [] evs r →
    NoDup (kw_stats_column <$> calls_of evs)) as Hdistinct.
  { intros cols names evs r Hcheck Hrel.
    destruct (check_names_passed _ _ _ _ _ Hcheck Hgiven) as (-> & _ & Hnd).
    apply NoDup_alt. intros i j x Hi Hj.
    rewrite list_lookup_fmap in Hi, Hj.
    destruct (calls_of evs !! i) as [kwi|] eqn:Hkwi; [|done].
    destruct (calls_of evs !! j) as [kwj|] eqn:Hkwj; [|done].
    simpl in Hi, Hj. injection Hi as Hi. injection Hj as Hj.
    pose proof (dispatches_names _ _ _ _ _ _ _ _ _ Hrel Htruthy i kwi Hkwi)
      as Hni.
    pose proof (dispatches_names _ _ _ _ _ _ _ _ _ Hrel Htruthy j kwj Hkwj)
      as Hnj.
    simpl in Hni, Hnj. rewrite Hi in Hni. rewrite Hj in Hnj.
    exact (proj1 (NoDup_alt _) Hnd i j x Hni Hnj). }
  destruct (main_outcomes env options)
    as [(e' & Hres & ->)
       | [(cols & e' & Hres & Hcheck & ->)
         | [(cols & names & evs & Hres & Hcheck & Hrel & ->)
           | (cols & names & evs & Hres & Hcheck & Hrel & ->)]]];
    simpl; [constructor | constructor | |].
  - rewrite calls_of_final. by eapply Hdistinct.
  - by eapply Hdistinct.
Qed.

(** Four distinct names for four jobs. *)
Lemma supplied_names_distinct_witness :
  let env := Sample.env Sample.always_ok in
  let options := Sample.options "pop,income" "sum,average" "a,b,c,d" in
  PyStr.truthy (stats_columns options) = true ∧
  NoDup (kw_stats_column <$> calls_of (main env options []).1).
Proof.
  intros env options. split; [reflexivity|].
  exact (supplied_names_distinct env options eq_refl).
Defined.

(** X15. The batch is empty exactly when no column is resolved, since
    there is always a method; and names supplied for an empty batch are
    rejected by the count check, there being at least one of them. *)
Theorem empty_batch env options (cols : list string) :
  (length cols * length (methods options) = 0 ↔ cols = []) ∧
  ((resolve env options []).2 = Ok [] →
   PyStr.truthy (stats_columns options) = true →
   main env options [] =
     ([], Abort (NameCountMismatchError
                   (length (stats_columns_names options)) 0
                   (length (methods options)) 0))).
Proof.
  split.
  - pose proof (split_truthy "," (method options)) as Hm.
    unfold methods. destruct (PyStr.split "," (method options)); [done|].
    destruct cols; simpl; split; intros; (done || lia).
  - intros Hres Hgiven. rewrite (main_run _ _ _ Hres).
    unfold run. eapply bind_abort.
    rewrite (check_names_mismatch options [] [] Hgiven); [done|].
    destruct (stats_columns_names_given _ Hgiven) as [_ Ht].
    destruct (stats_columns_names options); simpl in *; [done | lia].
Qed.

(** One name supplied for a table without numeric columns. *)
Lemma empty_batch_witness :
  let options := Sample.options EmptyString "sum" "total" in
  (resolve Sample.text_env options []).2 = Ok [] ∧
  PyStr.truthy (stats_columns options) = true ∧
  main Sample.text_env options [] =
    ([], Abort (NameCountMismatchError 1 0 1 0)).
Proof.
  intros options. split; [reflexivity|]. split; [reflexivity|].
  exact (proj2 (empty_batch Sample.text_env options []) eq_refl eq_refl).
Defined.

(** ** The whole run: further properties *)

(** X9. A run never ends with an [IndexError]: the count check
    guarantees a name for every job.  And with requested columns it never
    ends with a [KeyError]: a missing column is reported as not found. *)
Theorem no_stray_exception env options :
  (∀ i, (main env options []).2 ≠ Abort (IndexError i)) ∧
  (PyStr.truthy (points_columns options) = true →
   ∀ key, (main env options []).2 ≠ Abort (KeyError key)).
Proof.
  destruct (main_outcomes env options)
    as [(e' & Hres & ->)
       | [(cols & e' & Hres & Hcheck & ->)
         | [(cols & names & evs & _ & _ & _ & ->)
           | (cols & names & evs & _ & _ & _ & ->)]]];
    simpl; [| | done | done].
  - pose proof (resolve_abort _ _ _ Hres) as Hform. split.
    + intros i ?; by simplify_eq.
    + intros Hgiven key ?; simplify_eq.
      destruct Hform as (Hnone & _). by rewrite Hnone in Hgiven.
  - destruct (check_names_abort _ _ _ _ _ Hcheck)
      as [_ [(_ & ->) | (_ & _ & ->)]]; done.
Qed.

(** A request for a column the sample table lacks. *)
Lemma no_stray_exception_witness :
  let env := Sample.env Sample.always_ok in
  let options := Sample.options "ghost" "sum" EmptyString in
  PyStr.truthy (points_columns options) = true ∧
  (main env options []).2 = Abort (ColumnNotFoundError "ghost" "schools" "1") ∧
  (main env options []).2 ≠ Abort (KeyError "ghost").
Proof.
  intros env options. split; [reflexivity|]. split; [reflexivity|].
  exact (proj2 (no_stray_exception env options) eq_refl "ghost").
Defined.

(** X10. Validation comes before any effect: a run that ends abnormally
    for a reason other than a failed delegated call has issued no call
    and emitted no signal. *)
Theorem validation_before_dispatch env options e :
  (main env options []).2 = Abort e →
  e ≠ DelegatedOperationError →
  (main env options []).1 = [].
Proof.
  destruct (main_outcomes env options)
    as [(e' & _ & ->)
       | [(cols & e' & _ & _ & ->)
         | [(cols & names & evs & _ & _ & _ & ->)
           | (cols & names & evs & _ & _ & _ & ->)]]];
    simpl; intros; by simplify_eq.
Qed.

(** A duplicate among four names: nothing is issued. *)
Lemma validation_before_dispatch_witness :
  let env := Sample.env Sample.always_ok in
  let options := Sample.options "pop,income" "sum,average" "a,b,c,a" in
  (main env options []).2 = Abort (DuplicateNameError 4 3) ∧
  DuplicateNameError 4 3 ≠ DelegatedOperationError ∧
  (main env options []).1 = [].
Proof.
  intros env options.
  assert (DuplicateNameError 4 3 ≠ DelegatedOperationError) as Hne
    by discriminate.
  split; [reflexivity|]. split; [exact Hne|].
  exact (validation_before_dispatch env options (DuplicateNameError 4 3)
           eq_refl Hne).
Defined.

(** X11. A run returns only 0, and only after every job ran with
    success: every recorded call succeeded, there is one call per
    (column, method) pair, and the log holds a call and a signal for each
    job and the final signal. *)
Theorem return_means_all_jobs env options cols z :
  (resolve env options []).2 = Ok cols →
  (main env options []).2 = Ok z →
  z = 0%Z ∧
  all_calls_succeed env (main env options []).1 ∧
  length (calls_of (main env options []).1)
    = length cols * length (methods options) ∧
  length (main env options []).1
    = 2 * (length cols * length (methods options)) + 1 ∧
  last (main env options []).1 = Some (EPercent 1 1 1).
Proof.
  intros Hres. rewrite (main_run _ _ _ Hres).
  destruct (run_outcomes env options cols)
    as [(e & _ & ->)
       | [(names & evs & Hcheck & Hrel & ->)
         | (names & evs & _ & _ & ->)]];
    simpl; [done | | done].
  intros; simplify_eq.
  destruct (dispatches_ok_shape _ _ _ _ _ _ _ _ Hrel) as (Hcalls & Hlen & _).
  rewrite product_length in Hcalls, Hlen.
  split_and!; [done | | | |].
  - unfold all_calls_succeed. rewrite calls_of_final. intros j kw Hj.
    destruct (v_vect_stats env (take j (calls_of evs)) kw) eqn:Hok; [done|].
    by destruct (dispatches_fail_fast _ _ _ _ _ _ _ _ _ Hrel j kw Hj Hok)
      as (_ & ? & _).
  - by rewrite calls_of_final.
  - rewrite length_app, Hlen. simpl. lia.
  - apply last_snoc.
Qed.

(** Two columns and two methods: nine events. *)
Lemma return_means_all_jobs_witness :
  let env := Sample.env Sample.always_ok in
  let options := Sample.options "pop,income" "sum,average" EmptyString in
  (resolve env options []).2 = Ok ["pop"; "income"] ∧
  (main env options []).2 = Ok 0%Z ∧
  length (main env options []).1 = 9.
Proof.
  intros env options. split; [reflexivity|]. split; [reflexivity|].
  destruct (return_means_all_jobs env options ["pop"; "income"] 0%Z
              eq_refl eq_refl) as (_ & _ & _ & H & _).
  exact H.
Defined.

(** X12. The progress signals of a run that returns are
    [percent(0, N, 1)], ..., [percent(N - 1, N, 1)] and then
    [percent(1, 1, 1)]; those of a run stopped by a failed call with
    index [k] are [percent(0, N, 1)], ..., [percent(k - 1, N, 1)]. *)
Theorem progress_stream env options cols :
  (resolve env options []).2 = Ok cols →
  let n := length cols * length (methods options) in
  (∀ z, (main env options []).2 = Ok z →
        signals_of (main env options []).1
        = ((λ j, (j, n, 1)) <$> seq 0 n) ++ [(1, 1, 1)]) ∧
  ((main env options []).2 = Abort DelegatedOperationError →
   signals_of (main env options []).1
   = (λ j, (j, n, 1))
       <$> seq 0 (length (calls_of (main env options []).1) - 1)).
Proof.
  intros Hres n. rewrite (main_run _ _ _ Hres).
  destruct (run_outcomes env options cols)
    as [(e & Hcheck & ->)
       | [(names & evs & Hcheck & Hrel & ->)
         | (names & evs & Hcheck & Hrel & ->)]];
    simpl.
  - split; [done|]. intros; simplify_eq.
    by destruct (check_names_abort _ _ _ _ _ Hcheck)
      as [_ [(_ & ?) | (_ & _ & ?)]].
  - split; [|done]. intros z _.
    destruct (dispatches_ok_shape _ _ _ _ _ _ _ _ Hrel) as (_ & _ & Hsig).
    rewrite product_length in Hsig. fold n in Hsig.
    unfold signals_of in *. by rewrite omap_app, Hsig.
  - split; [done|]. intros _.
    destruct (dispatches_failed_shape _ _ _ _ _ _ _ _ Hrel)
      as (kws & kw & Hcalls & _ & _ & _ & Hsig).
    rewrite Hcalls, length_app. simpl.
    replace (length kws + 1 - 1) with (length kws) by lia. exact Hsig.
Qed.

(** The signals of a run stopped at the third of four jobs. *)
Lemma progress_stream_witness :
  let env := Sample.env (Sample.fails_at 2) in
  let options := Sample.options "pop,income" "sum,average" EmptyString in
  (resolve env options []).2 = Ok ["pop"; "income"] ∧
  (main env options []).2 = Abort DelegatedOperationError ∧
  signals_of (main env options []).1 = [(0, 4, 1); (1, 4, 1)].
Proof.
  intros env options. split; [reflexivity|]. split; [reflexivity|].
  exact (proj2 (progress_stream env options ["pop"; "income"] eq_refl)
           eq_refl).
Defined.

(** X13. A run that ends with the delegate's failure ends at the failed
    call: that call is the last call and the last event, every call
    before it succeeded, and each of those is followed by its signal. *)
Theorem delegate_failure_is_last env options :
  (main env options []).2 = Abort DelegatedOperationError →
  ∃ kws kw,
    calls_of (main env options []).1 = kws ++ [kw] ∧
    v_vect_stats env kws kw = false ∧
    last (main env options []).1 = Some (ECall "v.vect.stats" kw) ∧
    (∀ j kwj, kws !! j = Some kwj → v_vect_stats env (take j kws) kwj = true) ∧
    length (main env options []).1 = 2 * length kws + 1.
Proof.
  destruct (main_outcomes env options)
    as [(e' & Hres & ->)
       | [(cols & e' & Hres & Hcheck & ->)
         | [(cols & names & evs & _ & _ & _ & ->)
           | (cols & names & evs & _ & _ & Hrel & ->)]]];
    simpl; intros; simplify_eq.
  - by pose proof (resolve_abort _ _ _ Hres).
  - by destruct (check_names_abort _ _ _ _ _ Hcheck)
      as [_ [(_ & ?) | (_ & _ & ?)]].
  - destruct (dispatches_failed_shape _ _ _ _ _ _ _ _ Hrel)
      as (kws & kw & Hcalls & Hbad & Hlast & Hlen & _).
    exists kws, kw. split_and!; [done | done | done | | done].
    intros j kwj Hj.
    destruct (v_vect_stats env (take j kws) kwj) eqn:Hok; [done|].
    exfalso.
    assert (calls_of evs !! j = Some kwj) as Hj'
      by (rewrite Hcalls; by apply lookup_app_l_Some).
    assert (take j (calls_of evs) = take j kws) as Htake.
    { rewrite Hcalls. apply take_app_le.
      apply lookup_lt_Some in Hj. lia. }
    destruct (dispatches_fail_fast _ _ _ _ _ _ _ _ _ Hrel j kwj Hj')
      as (Hlast_j & _); [simpl; by rewrite Htake|].
    rewrite Hcalls, length_app in Hlast_j. simpl in Hlast_j.
    apply lookup_lt_Some in Hj. lia.
Qed.

(** A delegate that fails on its third call. *)
Lemma delegate_failure_is_last_witness :
  let env := Sample.env (Sample.fails_at 2) in
  let options := Sample.options "pop,income" "sum,average" EmptyString in
  (main env options []).2 = Abort DelegatedOperationError ∧
  ∃ kws kw, calls_of (main env options []).1 = kws ++ [kw] ∧
            length (main env options []).1 = 2 * length kws + 1.
Proof.
  intros env options. split; [reflexivity|].
  destruct (delegate_failure_is_last env options eq_refl)
    as (kws & kw & Hcalls & _ & _ & _ & Hlen).
  by exists kws, kw.
Defined.

Lemma modified_options_eq options :
  modified_options options =
    [ ("points", points options); ("areas", areas options);
      ("type", type options); ("points_layer", points_layer options);
      ("points_cats", points_cats options);
      ("points_where", points_where options);
      ("areas_layer", areas_layer options);
      ("areas_cats", areas_cats options);
      ("areas_where", areas_where options);
      ("count_column", count_column options) ].
Proof. reflexivity. Qed.

(** X14. Every delegated call of a run gets the same shared options:
    the ten options of the run other than the method, the source columns
    and the output names, each with its value and in the parser's order,
    together with [quiet=True] and [errors="exit"]. *)
Theorem calls_share_options env options i kw :
  calls_of (main env options []).1 !! i = Some kw →
  kw_options kw =
    [ ("points", points options); ("areas", areas options);
      ("type", type options); ("points_layer", points_layer options);
      ("points_cats", points_cats options);
      ("points_where", points_where options);
      ("areas_layer", areas_layer options);
      ("areas_cats", areas_cats options);
      ("areas_where", areas_where options);
      ("count_column", count_column options) ] ∧
  kw_quiet kw = true ∧ kw_errors kw = "exit".
Proof.
  destruct (main_cases env options) as [(e & _ & ->) | (cols & _ & ->)];
    [done|].
  intros Hi.
  destruct (run_with_call _ _ _ _ _ Hi) as (names & evs & r & _ & Hrel & Hrun).
  destruct (run_entered _ _ _ _ _ Hrun) as [Hcalls _].
  rewrite Hcalls in Hi.
  destruct (dispatches_sound _ _ _ _ _ _ _ _ _ Hrel i kw Hi)
    as (c & m & _ & _ & ->).
  simpl. by rewrite modified_options_eq.
Qed.

(** The shared options of the second call of the sample run. *)
Lemma calls_share_options_witness :
  let env := Sample.env Sample.always_ok in
  let options := Sample.options "pop" "sum,average" EmptyString in
  let kw := job_kwargs options "pop" "average" "pop_average" in
  calls_of (main env options []).1 !! 1 = Some kw ∧
  kw_options kw =
    [ ("points", "schools"); ("areas", "districts"); ("type", "point");
      ("points_layer", "1"); ("points_cats", EmptyString);
      ("points_where", EmptyString); ("areas_layer", "1");
      ("areas_cats", EmptyString); ("areas_where", EmptyString);
      ("count_column", "num_points") ].
Proof.
  intros env options kw.
  assert (calls_of (main env options []).1 !! 1 = Some kw) as Hi
    by (vm_compute; reflexivity).
  split; [exact Hi|].
  exact (proj1 (calls_share_options env options 1 kw Hi)).
Defined.
